(** * AvionAI: the generation request handler of [server.py]

    A shallow embedding of [generate] (POST /api/generate) and of the
    Python [str] built-ins it calls ([str.split], [str.upper],
    [str.title]), followed by the properties of the handler.

    Python strings are sequences of Unicode code points; the embedding
    keeps them as lists of code points.  The case mappings of the ASCII
    range and the whitespace set of [str.split] are written out; the
    case data of the code points above U+007F is a parameter of the
    development ([UnicodeData]). *)

From Stdlib Require Import String Ascii List NArith ZArith Bool Lia.
From Stdlib Require Import Floats.PrimFloat.
Import ListNotations.

(** ** Python strings *)

Module PyStr.

Definition char := N.
Definition str := list char.

Definition str_eqb (a b : str) : bool :=
  if list_eq_dec N.eq_dec a b then true else false.

(** A string literal of the source (ASCII only) as a [str]. *)
Definition lit (s : string) : str :=
  map N_of_ascii (list_ascii_of_string s).

Definition in_range (lo hi c : N) : bool := (lo <=? c)%N && (c <=? hi)%N.

(** [str.isspace] on one code point (CPython's [_PyUnicode_IsWhitespace]):
    the characters [str.split()] separates on. *)
Definition is_space (c : char) : bool :=
  in_range 0x09 0x0D c || in_range 0x1C 0x20 c
  || (c =? 0x85)%N || (c =? 0xA0)%N || (c =? 0x1680)%N
  || in_range 0x2000 0x200A c
  || (c =? 0x2028)%N || (c =? 0x2029)%N || (c =? 0x202F)%N
  || (c =? 0x205F)%N || (c =? 0x3000)%N.

Definition is_ascii (c : char) : bool := (c <? 128)%N.
Definition is_ascii_upper (c : char) : bool := in_range 65 90 c.
Definition is_ascii_lower (c : char) : bool := in_range 97 122 c.
Definition is_ascii_letter (c : char) : bool :=
  is_ascii_upper c || is_ascii_lower c.

(** The case data of the code points above the ASCII range, as the
    interpreter's Unicode database gives it: full upper, lower and
    title mappings (one code point may map to several), and the Cased
    and Case_Ignorable properties. *)
Record UnicodeData := {
  ext_upper : char -> str;
  ext_lower : char -> str;
  ext_title : char -> str;
  ext_cased : char -> bool;
  ext_case_ignorable : char -> bool
}.

Section CaseMapping.

Variable U : UnicodeData.

Definition to_upper_full (c : char) : str :=
  if is_ascii c then [if is_ascii_lower c then (c - 32)%N else c]
  else ext_upper U c.

Definition to_lower_full (c : char) : str :=
  if is_ascii c then [if is_ascii_upper c then (c + 32)%N else c]
  else ext_lower U c.

Definition to_title_full (c : char) : str :=
  if is_ascii c then [if is_ascii_lower c then (c - 32)%N else c]
  else ext_title U c.

Definition is_cased (c : char) : bool :=
  if is_ascii c then is_ascii_letter c else ext_cased U c.

Definition is_case_ignorable (c : char) : bool :=
  if is_ascii c then
    (c =? 0x27)%N || (c =? 0x2E)%N || (c =? 0x3A)%N
    || (c =? 0x5E)%N || (c =? 0x60)%N
  else ext_case_ignorable U c.

(** [s.upper()]: every code point is replaced by its full upper mapping. *)
Definition upper (s : str) : str := flat_map to_upper_full s.

Fixpoint drop_while (p : char -> bool) (s : str) : str :=
  match s with
  | [] => []
  | c :: rest => if p c then drop_while p rest else s
  end.

(** Capital sigma lower-cases to the final form when a cased letter
    precedes it and none follows, case-ignorable code points skipped on
    both sides.  [before] is the text before the sigma, nearest
    character first. *)
Definition final_sigma (before after : str) : bool :=
  match drop_while is_case_ignorable before with
  | [] => false
  | c :: _ =>
      is_cased c &&
      match drop_while is_case_ignorable after with
      | [] => true
      | d :: _ => negb (is_cased d)
      end
  end.

Definition lower_in_context (before : str) (c : char) (after : str) : str :=
  if (c =? 0x3A3)%N then
    [if final_sigma before after then 0x3C2%N else 0x3C3%N]
  else to_lower_full c.

(** [s.title()]: a character that follows a cased character is
    lower-cased, any other is title-cased; casedness is read off the
    original text. *)
Fixpoint do_title (before : str) (previous_is_cased : bool) (s : str) : str :=
  match s with
  | [] => []
  | c :: rest =>
      (if previous_is_cased then lower_in_context before c rest
       else to_title_full c)
      ++ do_title (c :: before) (is_cased c) rest
  end.

Definition title (s : str) : str := do_title [] false s.

End CaseMapping.

(** [s.split()]: the maximal runs of non-whitespace characters, in
    order.  [word] is the run being read. *)
Fixpoint split_from (word : str) (s : str) : list str :=
  match s with
  | [] => match word with [] => [] | _ => [word] end
  | c :: rest =>
      if is_space c then
        match word with
        | [] => split_from [] rest
        | _ => word :: split_from [] rest
        end
      else split_from (word ++ [c]) rest
  end.

Definition split (s : str) : list str := split_from [] s.

(** The character an ASCII character becomes at the start of a word
    ([ascii_capital]) and inside one ([ascii_small]). *)
Definition ascii_capital (c : char) : char :=
  if is_ascii_lower c then (c - 32)%N else c.

Definition ascii_small (c : char) : char :=
  if is_ascii_upper c then (c + 32)%N else c.

(** A character with simple case mappings: its title-case and
    lower-case forms are single characters, each left alone by the
    mapping that produced it and cased exactly when the character is.
    Capital sigma, whose lower-case form depends on what surrounds it,
    is set apart. *)
Definition case_stable (U : UnicodeData) (c : char) : bool :=
  negb (c =? 0x3A3)%N
  && match to_title_full U c, to_lower_full U c with
     | [t], [l] =>
         negb (l =? 0x3A3)%N
         && str_eqb (to_title_full U t) [t]
         && str_eqb (to_lower_full U l) [l]
         && Bool.eqb (is_cased U t) (is_cased U c)
         && Bool.eqb (is_cased U l) (is_cased U c)
     | _, _ => false
     end.

(** An excerpt of the Unicode database: U+01F0 (small j with caron) is
    cased, has no single-character capital and title-cases to
    <U+004A, U+030C>; the combining caron U+030C is case-ignorable and
    not cased; U+00DF (sharp s) upper-cases to "SS" and title-cases to
    "Ss".  Code points not listed are left unmapped. *)
Definition ucd_excerpt : UnicodeData := {|
  ext_upper := fun c =>
    if (c =? 0x1F0)%N then [0x4A; 0x30C]%N
    else if (c =? 0xDF)%N then [0x53; 0x53]%N else [c];
  ext_lower := fun c => [c];
  ext_title := fun c =>
    if (c =? 0x1F0)%N then [0x4A; 0x30C]%N
    else if (c =? 0xDF)%N then [0x53; 0x73]%N else [c];
  ext_cased := fun c => (c =? 0x1F0)%N || (c =? 0xDF)%N;
  ext_case_ignorable := fun c => (c =? 0x30C)%N
|}.

End PyStr.

Import PyStr.

(** ** Python values, exceptions and effects *)

Set Warnings "-register-all".

(** The values [json.loads] and [request.json()] produce. *)
Inductive pyval :=
| PNone
| PBool (b : bool)
| PInt (z : Z)
| PFloat (f : float)
| PStr (s : str)
| PList (l : list pyval)
| PDict (d : list (str * pyval)).

(** The exceptions the handler can meet.  [IndexError] carries the
    sequence that was indexed, [UnicodeEncodeError] the text that could
    not be encoded.  [RuntimeExc] stands for what the libraries raise
    on their own (network failure, undecodable JSON); its argument is
    the message. *)
Inductive exn :=
| AttributeError (obj : pyval) (attr : str)
| TypeErrorUnhashable (key : pyval)
| TypeErrorSubscript (obj : pyval)
| KeyError (key : pyval)
| IndexError (obj : pyval)
| UnicodeEncodeError (text : str)
| RuntimeExc (msg : str).

Inductive outcome (A : Type) :=
| Ret (a : A)
| Raise (e : exn).
Arguments Ret {A} a.
Arguments Raise {A} e.

(** What the handler does to the outside world, in order. *)
Inductive event :=
| EvPost (url : str) (headers json : pyval)
| EvGet (url : str) (headers : pyval)
| EvSleep (seconds : Z).

Definition trace := list event.

(** A computation reads and extends the trace and returns or raises. *)
Definition M (A : Type) := trace -> outcome A * trace.

Class Monad (m : Type -> Type) := {
  ret : forall {A}, A -> m A;
  bind : forall {A B}, m A -> (A -> m B) -> m B
}.

#[export] Instance Monad_outcome : Monad outcome := {
  ret := fun _ a => Ret a;
  bind := fun _ _ c k => match c with Ret a => k a | Raise e => Raise e end
}.

#[export] Instance Monad_M : Monad M := {
  ret := fun _ a tr => (Ret a, tr);
  bind := fun _ _ c k tr =>
    match c tr with
    | (Ret a, tr') => k a tr'
    | (Raise e, tr') => (Raise e, tr')
    end
}.

Declare Scope py_scope.
Delimit Scope py_scope with py.
Notation "x <- c ;; k" := (bind c (fun x => k))
  (at level 100, c at next level, right associativity) : py_scope.
Notation "c ;;; k" := (bind c (fun _ => k))
  (at level 100, right associativity) : py_scope.
Open Scope py_scope.

Definition lift {A} (o : outcome A) : M A := fun tr => (o, tr).
Definition emit (ev : event) : M unit := fun tr => (Ret tt, tr ++ [ev]).
Definition get_trace : M trace := fun tr => (Ret tr, tr).

(** [try: c  except Exception as e: h e] *)
Definition try_except {A} (c : M A) (h : exn -> M A) : M A :=
  fun tr =>
    match c tr with
    | (Ret a, tr') => (Ret a, tr')
    | (Raise e, tr') => h e tr'
    end.

Definition is_get (ev : event) : bool :=
  match ev with EvGet _ _ => true | _ => false end.

(** The number of status queries a trace records. *)
Definition queries (tr : trace) : nat := length (filter is_get tr).

(** *** Dictionaries and subscripts *)

Fixpoint lookup {V} (k : str) (d : list (str * V)) : option V :=
  match d with
  | [] => None
  | (k', v) :: rest => if str_eqb k k' then Some v else lookup k rest
  end.

(** [bool(v)] *)
Definition truthy (v : pyval) : bool :=
  match v with
  | PNone => false
  | PBool b => b
  | PInt z => negb (z =? 0)%Z
  | PFloat f => negb (PrimFloat.eqb f 0%float)
  | PStr s => match s with [] => false | _ => true end
  | PList l => match l with [] => false | _ => true end
  | PDict d => match d with [] => false | _ => true end
  end.

(** [data.get(key, default)]: a method of dictionaries only. *)
Definition dict_get (data : pyval) (key : str) (default : pyval)
  : outcome pyval :=
  match data with
  | PDict d => Ret (match lookup key d with Some v => v | None => default end)
  | _ => Raise (AttributeError data (lit "get"))
  end.

(** [table.get(key, default)] on a dictionary with string keys: lists
    and dictionaries cannot be hashed, any other non-string is absent. *)
Definition table_get (table : list (str * str)) (key : pyval) (default : str)
  : outcome str :=
  match key with
  | PStr k => Ret (match lookup k table with Some v => v | None => default end)
  | PList _ | PDict _ => Raise (TypeErrorUnhashable key)
  | _ => Ret default
  end.

(** [obj[key]] for a string [key]. *)
Definition getitem (obj : pyval) (key : str) : outcome pyval :=
  match obj with
  | PDict d =>
      match lookup key d with
      | Some v => Ret v
      | None => Raise (KeyError (PStr key))
      end
  | _ => Raise (TypeErrorSubscript obj)
  end.

(** [obj[0]] *)
Definition getitem0 (obj : pyval) : outcome pyval :=
  match obj with
  | PList (v :: _) => Ret v
  | PList [] => Raise (IndexError obj)
  | PStr (c :: _) => Ret (PStr [c])
  | PStr [] => Raise (IndexError obj)
  | PDict _ => Raise (KeyError (PInt 0))
  | _ => Raise (TypeErrorSubscript obj)
  end.

(** [v == 'literal'] *)
Definition eq_str (v : pyval) (s : str) : bool :=
  match v with PStr s' => str_eqb s' s | _ => false end.

(** ** The handler *)

(** What the interpreter and the libraries supply: the Unicode
    database, [str(e)] of an exception, [str(v)] of a value that is not
    a string (as [print] and an f-string render it), [json.loads], the
    environment variable read at start-up ([os.getenv]: a string or
    [None]), and what writing a text to standard output does: it
    returns, or raises when the stream cannot take the text (a
    character outside its encoding, a closed pipe). *)
Record Runtime := {
  unicode : UnicodeData;
  str_of_exn : exn -> str;
  str_of_value : pyval -> str;
  json_loads : str -> outcome pyval;
  LEONARDO_API_KEY : pyval;
  stdout_write : str -> outcome unit
}.

(** The image service: its reply to the job-creation request (status
    and text) and to each status query (status and what [.json()]
    gives), or the exception the call raises.  A status query is
    identified by the number of queries made before it. *)
Record Upstream := {
  post_reply : str -> pyval -> pyval -> outcome (Z * str);
  get_reply : nat -> str -> pyval -> outcome (Z * outcome pyval)
}.

Record response := { status : Z; body : pyval }.

(** [web.json_response(data, status=status)] *)
Definition json_response (data : pyval) (st : Z) : response :=
  {| status := st; body := data |}.

Definition error_body (msg : str) : pyval := PDict [(lit "error", PStr msg)].

Definition nl : str := [10%N].

Definition LEONARDO_BASE_URL : str :=
  lit "https://cloud.leonardo.ai/api/rest/v1".

Definition ART_STYLE_PROMPTS : list (str * str) :=
  [ (lit "pixel",
     lit "16-bit pixel art style, retro gaming aesthetic, clean pixelated edges,"
     ++ nl ++
     lit "        reminiscent of classic video games, limited color palette, sharp pixels");
    (lit "anime",
     lit "anime art style, manga-inspired, cel-shaded, vibrant colors,"
     ++ nl ++
     lit "        kawaii aesthetic, clean linework, anime character design");
    (lit "3d",
     lit "3D rendered style, volumetric lighting, subsurface scattering,"
     ++ nl ++
     lit "        realistic textures, ambient occlusion, ray-traced reflections");
    (lit "minimalist",
     lit "minimalist design, clean lines, simple shapes,"
     ++ nl ++
     lit "        limited color palette, negative space, geometric composition");
    (lit "cartoon",
     lit "cartoon style, bold outlines, vibrant colors,"
     ++ nl ++
     lit "        exaggerated features, playful design, smooth shading");
    (lit "realistic",
     lit "realistic digital painting, detailed textures,"
     ++ nl ++
     lit "        professional illustration, photorealistic elements, detailed shading") ].

(** [table[key]] *)
Definition table_item (table : list (str * str)) (key : str) : outcome str :=
  match lookup key table with
  | Some v => Ret v
  | None => Raise (KeyError (PStr key))
  end.

Section Handler.

Variable R : Runtime.

(** [f"{v}"] *)
Definition fmt (v : pyval) : str :=
  match v with PStr s => s | _ => str_of_value R v end.

Definition base_prompt (idea : pyval) (style_prompt : str) : str :=
  lit "detailed cryptocurrency mascot logo of a " ++ fmt idea
  ++ lit "," ++ nl ++ lit "            " ++ style_prompt
  ++ lit "," ++ nl
  ++ lit "            centered composition, clean vectorized style,"
  ++ nl
  ++ lit "            suitable for crypto token, professional logo design".

Definition headers : pyval :=
  PDict [ (lit "accept", PStr (lit "application/json"));
          (lit "authorization",
           PStr (lit "Bearer " ++ fmt (LEONARDO_API_KEY R)));
          (lit "content-type", PStr (lit "application/json")) ].

Definition payload (prompt : str) : pyval :=
  PDict [ (lit "height", PInt 512);
          (lit "width", PInt 512);
          (lit "prompt", PStr prompt);
          (lit "modelId", PStr (lit "6bef9f1b-29cb-40c7-b9df-32b51c1f67d3"));
          (lit "negative_prompt",
           PStr (lit "text, watermark, logo, words, letters, signature, realistic, photographic, abstract shapes, blurry, low quality"));
          (lit "num_images", PInt 1);
          (lit "guidance_scale", PInt 8);
          (lit "init_strength", PFloat 0x1.999999999999ap-2%float) ].

(** [idea.title()] and [idea.split()]: methods of strings only. *)
Definition str_title (v : pyval) : outcome str :=
  match v with
  | PStr s => Ret (title (unicode R) s)
  | _ => Raise (AttributeError v (lit "title"))
  end.

Definition str_split (v : pyval) : outcome (list str) :=
  match v with
  | PStr s => Ret (split s)
  | _ => Raise (AttributeError v (lit "split"))
  end.

(** [word[0].upper()] *)
Definition first_upper (word : str) : outcome str :=
  match word with
  | [] => Raise (IndexError (PStr word))
  | c :: _ => Ret (upper (unicode R) [c])
  end.

(** [''.join(word[0].upper() for word in words)] *)
Fixpoint join_first_upper (words : list str) : outcome str :=
  match words with
  | [] => Ret []
  | word :: rest =>
      u <- first_upper word ;;
      r <- join_first_upper rest ;;
      ret (u ++ r)
  end.

(** [''.join(word[0].upper() for word in idea.split()[:3])] *)
Definition ticker (idea : pyval) : outcome str :=
  words <- str_split idea ;;
  join_first_upper (firstn 3 words).

Definition social_links : pyval :=
  PList [ PStr (lit "Twitter Account"); PStr (lit "Telegram Group");
          PStr (lit "Website") ].

(** The dictionary of the 200 response, its items evaluated in order. *)
Definition success_body (image_url idea : pyval) : outcome pyval :=
  name <- str_title idea ;;
  tick <- ticker idea ;;
  ret (PDict [ (lit "imageUrl", image_url);
               (lit "name", PStr name);
               (lit "ticker", PStr tick);
               (lit "description",
                PStr (lit "Revolutionary " ++ fmt idea
                      ++ lit " token powered by advanced AI technology."));
               (lit "socialLinks", social_links);
               (lit "success", PBool true) ]).

(** [f"{LEONARDO_BASE_URL}/generations"] and
    [f"{LEONARDO_BASE_URL}/generations/{generation_id}"] *)
Definition generations_url : str := LEONARDO_BASE_URL ++ lit "/generations".

Definition status_url (generation_id : pyval) : str :=
  LEONARDO_BASE_URL ++ lit "/generations/" ++ fmt generation_id.

(** [print(a, b, ...)]: the arguments with a space between them, then a
    newline, each written to standard output in turn; the first write
    that raises ends the call. *)
Fixpoint write_args (args : list str) : outcome unit :=
  match args with
  | [] => Ret tt
  | [a] => stdout_write R a
  | a :: rest =>
      stdout_write R a ;;;
      stdout_write R (lit " ") ;;;
      write_args rest
  end.

Definition py_print (args : list str) : outcome unit :=
  write_args args ;;;
  stdout_write R nl.

(** The arguments of the [print] calls of [generate], in source
    order. *)
Definition received_line (data : pyval) : list str :=
  [lit "Received data:"; fmt data].

Definition processing_line (idea art_style : pyval) : list str :=
  [lit "Processing request - idea: " ++ fmt idea
   ++ lit ", style: " ++ fmt art_style].

Definition making_line : list str :=
  [lit "Making request to Leonardo API..."].

Definition status_line (response_status : Z) : list str :=
  [lit "Response status: " ++ fmt (PInt response_status)].

Definition text_line (response_text : str) : list str :=
  [lit "Response text: " ++ response_text].

Definition api_error_line (api_error : exn) : list str :=
  [lit "API request error: " ++ str_of_exn R api_error].

Definition detailed_error_line (e : exn) : list str :=
  [lit "Detailed error: " ++ str_of_exn R e].

(** [ART_STYLE_PROMPTS.get(art_style, ART_STYLE_PROMPTS['pixel'])] *)
Definition style_prompt_for (art_style : pyval) : outcome str :=
  default <- table_item ART_STYLE_PROMPTS (lit "pixel") ;;
  table_get ART_STYLE_PROMPTS art_style default.

Variable up : Upstream.

(** One pass of the poll loop up to the sleep: [Some r] when the body
    returns [r], [None] when it falls through. *)
Definition poll_once (generation_id idea : pyval) : M (option response) :=
  let url := status_url generation_id in
  tr <- get_trace ;;
  emit (EvGet url headers) ;;;
  check_response <- lift (get_reply up (queries tr) url headers) ;;
  if (fst check_response =? 200)%Z then
    result <- lift (snd check_response) ;;
    by_pk <- lift (getitem result (lit "generations_by_pk")) ;;
    st <- lift (getitem by_pk (lit "status")) ;;
    if eq_str st (lit "COMPLETE") then
      by_pk' <- lift (getitem result (lit "generations_by_pk")) ;;
      images <- lift (getitem by_pk' (lit "generated_images")) ;;
      first <- lift (getitem0 images) ;;
      image_url <- lift (getitem first (lit "url")) ;;
      data <- lift (success_body image_url idea) ;;
      ret (Some (json_response data 200))
    else ret None
  else ret None.

(** [for _ in range(attempts): ...] followed by the timeout response. *)
Fixpoint poll (attempts : nat) (generation_id idea : pyval) : M response :=
  match attempts with
  | O => ret (json_response (error_body (lit "Timeout waiting for image")) 500)
  | S attempts' =>
      r <- poll_once generation_id idea ;;
      match r with
      | Some resp => ret resp
      | None =>
          emit (EvSleep 1) ;;;
          poll attempts' generation_id idea
      end
  end.

(** The inner [try] block: job creation, then polling. *)
Definition submit_and_poll (idea : pyval) (prompt : str) : M response :=
  let url := generations_url in
  lift (py_print making_line) ;;;
  emit (EvPost url headers (payload prompt)) ;;;
  reply <- lift (post_reply up url headers (payload prompt)) ;;
  let (response_status, response_text) := reply in
  lift (py_print (status_line response_status)) ;;;
  lift (py_print (text_line response_text)) ;;;
  if negb (response_status =? 200)%Z then
    ret (json_response
           (error_body (lit "Failed to generate image: " ++ response_text))
           response_status)
  else
    generation_data <- lift (json_loads R response_text) ;;
    job <- lift (getitem generation_data (lit "sdGenerationJob")) ;;
    generation_id <- lift (getitem job (lit "generationId")) ;;
    poll 30 generation_id idea.

(** The two [except] blocks: each prints the error, then answers 500.
    An exception of the print leaves the block like any other. *)
Definition on_api_error (api_error : exn) : M response :=
  lift (py_print (api_error_line api_error)) ;;;
  ret (json_response
         (error_body (lit "API request failed: " ++ str_of_exn R api_error))
         500).

Definition on_error (e : exn) : M response :=
  lift (py_print (detailed_error_line e)) ;;;
  ret (json_response (error_body (str_of_exn R e)) 500).

(** [generate(request)]; [request_json] is what [await request.json()]
    gives. *)
Definition generate (request_json : outcome pyval) : M response :=
  try_except
    (data <- lift request_json ;;
     lift (py_print (received_line data)) ;;;
     idea <- lift (dict_get data (lit "idea") PNone) ;;
     art_style <- lift (dict_get data (lit "artStyle") (PStr (lit "pixel"))) ;;
     lift (py_print (processing_line idea art_style)) ;;;
     if negb (truthy idea) then
       ret (json_response (error_body (lit "No idea provided")) 400)
     else
       style_prompt <- lift (style_prompt_for art_style) ;;
       try_except
         (submit_and_poll idea (base_prompt idea style_prompt))
         on_api_error)
    on_error.

(** A run of the handler from the empty trace. *)
Definition handle (request_json : outcome pyval) : outcome response * trace :=
  generate request_json [].

End Handler.

(** ** Vocabulary of the properties *)

(** [d[key]] of a response body or an upstream result, when present. *)
Definition field (key : str) (v : pyval) : option pyval :=
  match v with PDict d => lookup key d | _ => None end.

(** A response is successful when its body carries [success: true]. *)
Definition successful (r : response) : Prop :=
  field (lit "success") (body r) = Some (PBool true).

Definition no_idea_response : response :=
  json_response (error_body (lit "No idea provided")) 400.

Definition timeout_response : response :=
  json_response (error_body (lit "Timeout waiting for image")) 500.

(** The requests of a run, the replies they get, and the responses
    built from them. *)
Definition creation (R : Runtime) (prompt : str) : event :=
  EvPost generations_url (headers R) (payload prompt).

Definition creation_reply (R : Runtime) (up : Upstream) (prompt : str)
  : outcome (Z * str) :=
  post_reply up generations_url (headers R) (payload prompt).

Definition poll_get (R : Runtime) (generation_id : pyval) : event :=
  EvGet (status_url R generation_id) (headers R).

(** The reply to the status query made after [k] earlier ones. *)
Definition reply_at (R : Runtime) (up : Upstream) (generation_id : pyval)
  (k : nat) : outcome (Z * outcome pyval) :=
  get_reply up k (status_url R generation_id) (headers R).

(** The events of [n] passes of the poll loop that fall through. *)
Fixpoint rounds (R : Runtime) (generation_id : pyval) (n : nat) : trace :=
  match n with
  | O => []
  | S n' => poll_get R generation_id :: EvSleep 1 :: rounds R generation_id n'
  end.

Definition refusal (st : Z) (text : str) : response :=
  json_response (error_body (lit "Failed to generate image: " ++ text)) st.

Definition api_failure (R : Runtime) (e : exn) : response :=
  json_response (error_body (lit "API request failed: " ++ str_of_exn R e)) 500.

(** The [print] calls with these arguments all return. *)
Definition prints (R : Runtime) (lines : list (list str)) : bool :=
  forallb (fun args =>
             match py_print R args with Ret _ => true | Raise _ => false end)
          lines.


(** The prompt of the job-creation request, when the trace starts with
    one. *)
Definition sent_prompt (tr : trace) : option str :=
  match tr with
  | EvPost _ _ json :: _ =>
      match field (lit "prompt") json with
      | Some (PStr p) => Some p
      | _ => None
      end
  | _ => None
  end.

(** A value that can be a dictionary key: anything but a list or a
    dictionary. *)
Definition hashable (v : pyval) : bool :=
  match v with PList _ | PDict _ => false | _ => true end.

(** A status reply that leaves the job pending: any status other than
    200, or a 200 whose result carries a state other than COMPLETE. *)
Definition pending (reply : outcome (Z * outcome pyval)) : bool :=
  match reply with
  | Ret (st, js) =>
      if (st =? 200)%Z then
        match js with
        | Ret result =>
            match field (lit "generations_by_pk") result with
            | Some by_pk =>
                match field (lit "status") by_pk with
                | Some state => negb (eq_str state (lit "COMPLETE"))
                | None => false
                end
            | None => false
            end
        | Raise _ => false
        end
      else true
  | Raise _ => false
  end.

Definition starts_blank (s : str) : Prop :=
  match s with [] => True | c :: _ => is_space c = true end.

(** The whitespace-separated words of a string: the string is blanks,
    a word, and, after a blank or at the end, the rest. *)
Inductive words_of : str -> list str -> Prop :=
| words_blank (s : str) :
    forallb is_space s = true -> words_of s []
| words_word (sp w rest : str) (ws : list str) :
    forallb is_space sp = true ->
    w <> [] ->
    forallb (fun c => negb (is_space c)) w = true ->
    starts_blank rest ->
    words_of rest ws ->
    words_of (sp ++ w ++ rest) (w :: ws).

(** The ticker as the specification words it: the upper-cased first
    characters of up to the first three words, concatenated. *)
Definition spec_ticker (U : UnicodeData) (ws : list str) : str :=
  flat_map (fun w => upper U (firstn 1 w)) (firstn 3 ws).

(** The first characters of up to the first three words of a string. *)
Definition initials (s : str) : str :=
  flat_map (firstn 1) (firstn 3 (split s)).

(** *** Test doubles *)

Definition mock_job : pyval :=
  PDict [ (lit "sdGenerationJob",
           PDict [ (lit "generationId", PStr (lit "gen-1")) ]) ].

(** A standard output encoded in UTF-8: it takes every text but one
    with a surrogate code point (U+D800 to U+DFFF). *)
Definition utf8_stdout (text : str) : outcome unit :=
  if existsb (in_range 0xD800 0xDFFF) text
  then Raise (UnicodeEncodeError text)
  else Ret tt.

Definition mock_runtime : Runtime := {|
  unicode := ucd_excerpt;
  str_of_exn := fun _ => lit "error";
  str_of_value := fun _ => lit "?";
  json_loads := fun text =>
    if str_eqb text (lit "job") then Ret mock_job
    else Raise (RuntimeExc (lit "Expecting value"));
  LEONARDO_API_KEY := PStr (lit "key");
  stdout_write := utf8_stdout
|}.


Definition closed_stdout (text : str) : outcome unit :=
  Raise (RuntimeExc (lit "I/O operation on closed file")).

Definition with_stdout (R : Runtime) (write : str -> outcome unit) : Runtime := {|
  unicode := unicode R;
  str_of_exn := str_of_exn R;
  str_of_value := str_of_value R;
  json_loads := json_loads R;
  LEONARDO_API_KEY := LEONARDO_API_KEY R;
  stdout_write := write
|}.

Definition mock_result (state : str) (images : list pyval) : pyval :=
  PDict [ (lit "generations_by_pk",
           PDict [ (lit "status", PStr state);
                   (lit "generated_images", PList images) ]) ].

Definition mock_image (url : str) : pyval := PDict [ (lit "url", PStr url) ].

(** An image service whose job completes on status query number
    [complete_at] (counted from 1); the queries before it alternate
    between a 503 and a pending result. *)
Definition mock_upstream (complete_at : nat) : Upstream := {|
  post_reply := fun _ _ _ => Ret (200%Z, lit "job");
  get_reply := fun k _ _ =>
    if Nat.eqb (S k) complete_at then
      Ret (200%Z,
           Ret (mock_result (lit "COMPLETE")
                  [ mock_image (lit "https://cdn.example/a.png");
                    mock_image (lit "https://cdn.example/b.png") ]))
    else if Nat.even k then
      Ret (503%Z, Raise (RuntimeExc (lit "Service Unavailable")))
    else Ret (200%Z, Ret (mock_result (lit "PENDING") []))
|}.


Definition mock_request (idea : str) (art_style : option pyval)
  : list (str * pyval) :=
  (lit "idea", PStr idea)
  :: match art_style with
     | Some v => [ (lit "artStyle", v) ]
     | None => []
     end.

(** ** Further vocabulary *)

(** The seconds a trace spends asleep, and the job-creation requests
    it holds. *)
Fixpoint slept (tr : trace) : Z :=
  match tr with
  | [] => 0
  | EvSleep seconds :: rest => (seconds + slept rest)%Z
  | _ :: rest => slept rest
  end.

Definition is_post (ev : event) : bool :=
  match ev with EvPost _ _ _ => true | _ => false end.

Definition creations (tr : trace) : nat := List.length (filter is_post tr).

(** How a run ends when it fails: with a 500 carrying an error message,
    or, when the error print of the outer [except] raises, with that
    exception. *)
Definition error_outcome (R : Runtime) (o : outcome response) : Prop :=
  (exists msg, o = Ret (json_response (error_body msg) 500))
  \/ (exists e e',
         o = Raise e' /\ py_print R (detailed_error_line R e) = Raise e').

(** The ways a run can go, with the outcome and the trace of each:
    stopped before the image service is contacted, stopped at the
    job-creation request, timed out, or ended by a status query. *)
Inductive run_kind (R : Runtime) (up : Upstream)
  : outcome response -> trace -> Prop :=
| run_invalid (o : outcome response) :
    error_outcome R o ->
    run_kind R up o []
| run_no_idea :
    run_kind R up (Ret no_idea_response) []
| run_refused (prompt : str) (st : Z) (text : str) :
    creation_reply R up prompt = Ret (st, text) ->
    st <> 200%Z ->
    run_kind R up (Ret (refusal st text)) [creation R prompt]
| run_no_job (prompt : str) (o : outcome response) :
    error_outcome R o ->
    run_kind R up o [creation R prompt]
| run_timeout (prompt : str) (generation_id : pyval) :
    run_kind R up (Ret timeout_response)
             (creation R prompt :: rounds R generation_id 30)
| run_success (prompt : str) (generation_id idea image_url data : pyval)
              (k : nat) :
    k < 30 ->
    success_body R image_url idea = Ret data ->
    run_kind R up (Ret (json_response data 200))
             (creation R prompt
                :: rounds R generation_id k ++ [poll_get R generation_id])
| run_poll_failed (prompt : str) (generation_id : pyval)
                  (o : outcome response) (k : nat) :
    k < 30 ->
    error_outcome R o ->
    run_kind R up o
             (creation R prompt
                :: rounds R generation_id k ++ [poll_get R generation_id]).

(** The first characters of the words of a string, read in one pass;
    [in_word] tells whether the text before is in the middle of a
    word. *)
Fixpoint first_chars (in_word : bool) (s : str) : str :=
  match s with
  | [] => []
  | c :: rest =>
      if is_space c then first_chars false rest
      else if in_word then first_chars true rest
      else c :: first_chars true rest
  end.

(** An image service that fails on status query number [failing]
    (counted from 1) with a network error, after pending replies. *)
Definition flaky_upstream (failing : nat) : Upstream := {|
  post_reply := fun _ _ _ => Ret (200%Z, lit "job");
  get_reply := fun k _ _ =>
    if Nat.eqb (S k) failing then
      Raise (RuntimeExc (lit "Connection reset by peer"))
    else Ret (200%Z, Ret (mock_result (lit "PENDING") []))
|}.

(** An image service whose job is complete at once, with no image. *)
Definition imageless_upstream : Upstream := {|
  post_reply := fun _ _ _ => Ret (200%Z, lit "job");
  get_reply := fun _ _ _ => Ret (200%Z, Ret (mock_result (lit "COMPLETE") []))
|}.

(** An image service that cannot be reached. *)
Definition unreachable_upstream : Upstream := {|
  post_reply := fun _ _ _ =>
    Raise (RuntimeExc (lit "Cannot connect to host"));
  get_reply := fun _ _ _ =>
    Raise (RuntimeExc (lit "Cannot connect to host"))
|}.

(** ** Facts about the string built-ins *)

Lemma str_eqb_eq (a b : str) : str_eqb a b = true <-> a = b.
Proof.
  unfold str_eqb. destruct (list_eq_dec N.eq_dec a b); split; congruence.
Qed.

Lemma str_eqb_refl (a : str) : str_eqb a a = true.
Proof. now apply str_eqb_eq. Qed.

Lemma str_eqb_neq (a b : str) : str_eqb a b = false <-> a <> b.
Proof.
  unfold str_eqb. destruct (list_eq_dec N.eq_dec a b); split; congruence.
Qed.

(** *** [split] *)

Lemma split_from_blank (s : str) :
  forallb is_space s = true -> split_from [] s = [].
Proof.
  induction s as [|c s IH]; simpl; [reflexivity|].
  intros H. apply andb_prop in H as [Hc Hs]. rewrite Hc. auto.
Qed.

Lemma split_from_skip (sp s : str) :
  forallb is_space sp = true -> split_from [] (sp ++ s) = split_from [] s.
Proof.
  induction sp as [|c sp IH]; simpl; [reflexivity|].
  intros H. apply andb_prop in H as [Hc Hs]. rewrite Hc. auto.
Qed.

Lemma split_from_word (w : str) :
  forall (acc s : str),
    forallb (fun c => negb (is_space c)) w = true ->
    split_from acc (w ++ s) = split_from (acc ++ w) s.
Proof.
  induction w as [|c w IH]; simpl; intros acc s H.
  - now rewrite app_nil_r.
  - apply andb_prop in H as [Hc Hw].
    apply negb_true_iff in Hc. rewrite Hc.
    rewrite IH by assumption. now rewrite <- app_assoc.
Qed.

Lemma split_from_end (acc s : str) :
  acc <> [] -> starts_blank s ->
  split_from acc s = acc :: split_from [] s.
Proof.
  intros Hacc Hs. destruct s as [|c s]; simpl in *.
  - destruct acc; congruence.
  - rewrite Hs. destruct acc; congruence.
Qed.

(** Any decomposition of a string into words is the one [split]
    computes. *)
Lemma words_of_split (s : str) (ws : list str) :
  words_of s ws -> split s = ws.
Proof.
  unfold split. induction 1 as [s Hs | sp w rest ws Hsp Hw Hns Hrest _ IH].
  - now apply split_from_blank.
  - rewrite split_from_skip by assumption.
    rewrite split_from_word by assumption. simpl.
    rewrite split_from_end by assumption. now rewrite IH.
Qed.

Lemma words_of_blank_cons (c : char) (s : str) (ws : list str) :
  is_space c = true -> words_of s ws -> words_of (c :: s) ws.
Proof.
  intros Hc H. destruct H as [s Hs | sp w rest ws Hsp Hw Hns Hrest Hws].
  - apply words_blank. simpl. now rewrite Hc.
  - change (c :: sp ++ w ++ rest) with ((c :: sp) ++ w ++ rest).
    apply words_word; auto. simpl. now rewrite Hc.
Qed.

(** [split] does decompose the string into its words. *)
Lemma split_from_words_of (s : str) :
  words_of s (split_from [] s) /\
  forall acc, acc <> [] ->
    forallb (fun c => negb (is_space c)) acc = true ->
    words_of (acc ++ s) (split_from acc s).
Proof.
  induction s as [|c s [IH0 IH1]].
  - split.
    + now apply words_blank.
    + intros acc Hacc Hns. simpl. destruct acc as [|a acc]; [congruence|].
      rewrite app_nil_r.
      pose proof (words_word [] (a :: acc) [] [] eq_refl Hacc Hns I
                    (words_blank [] eq_refl)) as H.
      simpl in H. now rewrite app_nil_r in H.
  - assert (H0 : words_of (c :: s) (split_from [] (c :: s))).
    { simpl. destruct (is_space c) eqn:Hc.
      - now apply words_of_blank_cons.
      - apply (IH1 [c]); [discriminate|]. simpl. now rewrite Hc. }
    split; [exact H0|].
    intros acc Hacc Hns. simpl. destruct (is_space c) eqn:Hc.
    + destruct acc as [|a acc]; [congruence|].
      assert (H := words_word [] (a :: acc) (c :: s) (split_from [] s)
                     eq_refl Hacc Hns Hc).
      simpl in H0. rewrite Hc in H0. specialize (H H0). exact H.
    + replace (acc ++ c :: s) with ((acc ++ [c]) ++ s)
        by (now rewrite <- app_assoc).
      apply IH1.
      * destruct acc; discriminate.
      * rewrite forallb_app, Hns. simpl. now rewrite Hc.
Qed.

Lemma split_words_of (s : str) : words_of s (split s).
Proof. apply split_from_words_of. Qed.

Lemma words_of_nonempty (s : str) (ws : list str) :
  words_of s ws -> Forall (fun w => w <> []) ws.
Proof. induction 1; constructor; auto. Qed.

Lemma split_nonempty (s : str) : Forall (fun w => w <> []) (split s).
Proof. exact (words_of_nonempty s (split s) (split_words_of s)). Qed.

(** *** Case mappings on the ASCII range *)

Ltac bools :=
  unfold is_ascii, is_ascii_letter, is_ascii_upper, is_ascii_lower, in_range
    in *;
  repeat match goal with
  | |- context [(?a <=? ?b)%N] => destruct (N.leb_spec a b)
  | |- context [(?a <? ?b)%N] => destruct (N.ltb_spec a b)
  | |- context [(?a =? ?b)%N] => destruct (N.eqb_spec a b)
  | H : context [(?a <=? ?b)%N] |- _ => destruct (N.leb_spec a b)
  | H : context [(?a <? ?b)%N] |- _ => destruct (N.ltb_spec a b)
  end;
  simpl in *; try reflexivity; try discriminate; try lia.

Section AsciiCase.

Variable U : UnicodeData.

Lemma to_upper_full_ascii (c : char) :
  is_ascii c = true -> to_upper_full U c = [ascii_capital c].
Proof. intros H. unfold to_upper_full, ascii_capital. now rewrite H. Qed.

Lemma to_title_full_ascii (c : char) :
  is_ascii c = true -> to_title_full U c = [ascii_capital c].
Proof. intros H. unfold to_title_full, ascii_capital. now rewrite H. Qed.

Lemma lower_in_context_ascii (before after : str) (c : char) :
  is_ascii c = true -> lower_in_context U before c after = [ascii_small c].
Proof.
  intros H. unfold lower_in_context, to_lower_full, ascii_small. rewrite H.
  destruct (N.eqb_spec c 0x3A3); [|reflexivity].
  subst c. discriminate H.
Qed.

Lemma ascii_capital_ascii (c : char) :
  is_ascii c = true -> is_ascii (ascii_capital c) = true.
Proof. unfold ascii_capital. bools. Qed.

Lemma ascii_small_ascii (c : char) :
  is_ascii c = true -> is_ascii (ascii_small c) = true.
Proof. unfold ascii_small. bools. Qed.

Lemma ascii_capital_idem (c : char) :
  ascii_capital (ascii_capital c) = ascii_capital c.
Proof. unfold ascii_capital. bools. Qed.

Lemma ascii_small_idem (c : char) :
  ascii_small (ascii_small c) = ascii_small c.
Proof. unfold ascii_small. bools. Qed.

Lemma ascii_capital_letter (c : char) :
  is_ascii_letter (ascii_capital c) = is_ascii_letter c.
Proof. unfold ascii_capital. bools. Qed.

Lemma ascii_small_letter (c : char) :
  is_ascii_letter (ascii_small c) = is_ascii_letter c.
Proof. unfold ascii_small. bools. Qed.

Lemma ascii_capital_not_lower (c : char) :
  is_ascii_lower (ascii_capital c) = false.
Proof. unfold ascii_capital. bools. Qed.

Lemma ascii_capital_upper (c : char) :
  is_ascii_letter c = true -> is_ascii_upper (ascii_capital c) = true.
Proof. unfold ascii_capital. bools. Qed.

Lemma is_cased_ascii (c : char) :
  is_ascii c = true -> is_cased U c = is_ascii_letter c.
Proof. intros H. unfold is_cased. now rewrite H. Qed.

Lemma ascii_case_stable (c : char) :
  is_ascii c = true -> case_stable U c = true.
Proof.
  intros H. unfold case_stable.
  assert (Hs : (c =? 0x3A3)%N = false).
  { apply N.eqb_neq. intros ->. discriminate H. }
  assert (Hl : (ascii_small c =? 0x3A3)%N = false).
  { apply N.eqb_neq. intros E. pose proof (ascii_small_ascii c H) as Ha.
    rewrite E in Ha. discriminate Ha. }
  rewrite Hs, (to_title_full_ascii c H).
  assert (Hlow : to_lower_full U c = [ascii_small c]).
  { pose proof (lower_in_context_ascii [] [] c H) as E.
    unfold lower_in_context in E. now rewrite Hs in E. }
  assert (Hlow' : to_lower_full U (ascii_small c) = [ascii_small c]).
  { pose proof (lower_in_context_ascii [] [] _ (ascii_small_ascii c H)) as E.
    unfold lower_in_context in E. rewrite Hl in E.
    now rewrite ascii_small_idem in E. }
  rewrite Hlow, Hl, Hlow'.
  rewrite (to_title_full_ascii _ (ascii_capital_ascii c H)).
  rewrite ascii_capital_idem, !str_eqb_refl.
  rewrite (is_cased_ascii _ (ascii_capital_ascii c H)).
  rewrite (is_cased_ascii _ (ascii_small_ascii c H)).
  rewrite (is_cased_ascii c H).
  rewrite ascii_capital_letter, ascii_small_letter.
  now rewrite Bool.eqb_reflx.
Qed.

(** What [case_stable] gives: the character [do_title] writes for
    [c], in either state, is written again for itself and is cased
    when [c] is. *)
Lemma case_stable_titled (c : char) (p : bool) :
  case_stable U c = true ->
  exists m,
    (forall before after,
        (if p then lower_in_context U before c after else to_title_full U c)
        = [m])
    /\ (forall before after,
           (if p then lower_in_context U before m after
            else to_title_full U m) = [m])
    /\ is_cased U m = is_cased U c.
Proof.
  unfold case_stable. intros H.
  apply andb_prop in H as [Hc H]. apply negb_true_iff in Hc.
  destruct (to_title_full U c) as [|t [|]] eqn:Et; try discriminate.
  destruct (to_lower_full U c) as [|l [|]] eqn:El; try discriminate.
  repeat (apply andb_prop in H as [H ?]).
  apply negb_true_iff in H.
  repeat match goal with
  | E : str_eqb _ _ = true |- _ => apply str_eqb_eq in E
  | E : Bool.eqb _ _ = true |- _ => apply Bool.eqb_prop in E
  end.
  destruct p.
  - exists l. unfold lower_in_context. rewrite Hc, H. repeat split; auto.
  - exists t. repeat split; auto.
Qed.

(** Title-casing a second time changes nothing when the characters
    have simple case mappings, whatever the context the second pass
    starts in. *)
Lemma do_title_stable_idem (s : str) :
  forall (before before' : str) (p : bool),
    forallb (case_stable U) s = true ->
    do_title U before' p (do_title U before p s) = do_title U before p s.
Proof.
  induction s as [|c s IH]; intros before before' p H; [reflexivity|].
  simpl in H. apply andb_prop in H as [Hc Hs].
  destruct (case_stable_titled c p Hc) as (m & Hm & Hmm & Hcased).
  specialize (Hm before s).
  specialize (Hmm before' (do_title U (c :: before) (is_cased U c) s)).
  destruct p; cbn [do_title]; rewrite Hm; cbn [app do_title];
    rewrite Hmm; cbn [app]; f_equal; rewrite Hcased; now apply IH.
Qed.

Lemma forallb_impl {A} (p q : A -> bool) (l : list A) :
  (forall a, p a = true -> q a = true) ->
  forallb p l = true -> forallb q l = true.
Proof.
  intros Hpq H. rewrite forallb_forall in *. auto.
Qed.

End AsciiCase.

(** *** The ticker *)

Section Ticker.

Variable R : Runtime.

Lemma join_first_upper_total (ws : list str) :
  Forall (fun w => w <> []) ws ->
  join_first_upper R ws
  = Ret (flat_map (fun w => upper (unicode R) (firstn 1 w)) ws).
Proof.
  induction 1 as [|w ws Hw _ IH]; [reflexivity|].
  destruct w as [|c w]; [congruence|].
  cbn [join_first_upper first_upper bind ret Monad_outcome].
  rewrite IH. reflexivity.
Qed.

Lemma Forall_firstn {A} (P : A -> Prop) (n : nat) (l : list A) :
  Forall P l -> Forall P (firstn n l).
Proof.
  intros H. revert n. induction H; intros [|n]; simpl; constructor; auto.
Qed.

(** On a string the ticker never raises: [split] yields no empty word. *)
Lemma ticker_total (s : str) :
  ticker R (PStr s) = Ret (spec_ticker (unicode R) (split s)).
Proof.
  unfold ticker, spec_ticker. cbn [str_split bind Monad_outcome].
  apply join_first_upper_total, Forall_firstn, split_nonempty.
Qed.

Lemma success_body_inv (image_url idea data : pyval) :
  success_body R image_url idea = Ret data ->
  exists s,
    idea = PStr s /\
    data = PDict [ (lit "imageUrl", image_url);
                   (lit "name", PStr (title (unicode R) s));
                   (lit "ticker", PStr (spec_ticker (unicode R) (split s)));
                   (lit "description",
                    PStr (lit "Revolutionary " ++ s
                          ++ lit " token powered by advanced AI technology."));
                   (lit "socialLinks", social_links);
                   (lit "success", PBool true) ].
Proof.
  unfold success_body. destruct idea; try discriminate.
  cbn [str_title bind ret Monad_outcome]. rewrite ticker_total.
  intros H. injection H as <-. now exists s.
Qed.

End Ticker.

(** ** Facts about the handler *)

Lemma queries_app (tr tr' : trace) :
  queries (tr ++ tr') = queries tr + queries tr'.
Proof. unfold queries. now rewrite filter_app, length_app. Qed.

Lemma getitem_field (obj : pyval) (key : str) (v : pyval) :
  field key obj = Some v -> getitem obj key = Ret v.
Proof. destruct obj; simpl; try discriminate. now intros ->. Qed.

Lemma forallb_seq (p : nat -> bool) (start len : nat) :
  forallb p (seq start len) = true ->
  forall k, start <= k < start + len -> p k = true.
Proof.
  intros H k Hk. rewrite forallb_forall in H. apply H, in_seq. exact Hk.
Qed.

(** *** The poll loop *)

Section Poll.

Variables (R : Runtime) (up : Upstream) (generation_id idea : pyval).

Local Abbreviation get := (poll_get R generation_id).
Local Abbreviation reply := (reply_at R up generation_id).

Lemma queries_rounds (n : nat) : queries (rounds R generation_id n) = n.
Proof.
  induction n as [|n IH]; [reflexivity|].
  change (queries (rounds R generation_id (S n)))
    with (S (queries (rounds R generation_id n))).
  now rewrite IH.
Qed.

Lemma poll_once_pending (tr : trace) :
  pending (reply (queries tr)) = true ->
  poll_once R up generation_id idea tr = (Ret None, tr ++ [get]).
Proof.
  unfold poll_once, reply_at, pending, poll_get.
  cbn [bind ret Monad_M get_trace emit lift].
  destruct (get_reply up (queries tr) _ _) as [[st js]|e]; [|discriminate].
  cbn [fst snd]. destruct (st =? 200)%Z; [|reflexivity].
  destruct js as [result|e]; [|discriminate].
  destruct (field (lit "generations_by_pk") result) as [by_pk|] eqn:E1;
    [|discriminate].
  rewrite (getitem_field _ _ _ E1).
  destruct (field (lit "status") by_pk) as [state|] eqn:E2; [|discriminate].
  rewrite (getitem_field _ _ _ E2).
  intros H. apply negb_true_iff in H. now rewrite H.
Qed.

(** A pass that meets a pending reply costs one attempt and nothing
    else. *)
Lemma poll_step_pending (n : nat) (tr : trace) :
  pending (reply (queries tr)) = true ->
  poll R up (S n) generation_id idea tr
  = poll R up n generation_id idea (tr ++ [get; EvSleep 1]).
Proof.
  intros H. cbn [poll bind Monad_M]. rewrite (poll_once_pending tr H).
  cbn [emit]. now rewrite <- app_assoc.
Qed.

Lemma poll_skip (m : nat) :
  forall (n : nat) (tr : trace),
    (forall k, queries tr <= k < queries tr + m -> pending (reply k) = true) ->
    poll R up (m + n) generation_id idea tr
    = poll R up n generation_id idea (tr ++ rounds R generation_id m).
Proof.
  induction m as [|m IH]; intros n tr H.
  - simpl. now rewrite app_nil_r.
  - assert (H0 : pending (reply (queries tr)) = true)
      by (apply H; clear IH; lia).
    assert (H1 : forall k,
               queries (tr ++ [get; EvSleep 1]) <= k
               < queries (tr ++ [get; EvSleep 1]) + m ->
               pending (reply k) = true).
    { intros k Hk. apply H. rewrite queries_app in Hk.
      change (queries [get; EvSleep 1]) with 1 in Hk. clear IH. lia. }
    change (S m + n) with (S (m + n)).
    rewrite (poll_step_pending _ _ H0), (IH _ _ H1).
    cbn [rounds]. now rewrite <- app_assoc.
Qed.

Lemma poll_timeout (n : nat) (tr : trace) :
  (forall k, queries tr <= k < queries tr + n -> pending (reply k) = true) ->
  poll R up n generation_id idea tr
  = (Ret timeout_response, tr ++ rounds R generation_id n).
Proof.
  intros H. rewrite <- (Nat.add_0_r n) at 1. now rewrite poll_skip.
Qed.


Ltac split_cases :=
  repeat match goal with
  | |- context [match ?x with _ => _ end] => destruct x eqn:?
  | |- context [if ?x then _ else _] => destruct x eqn:?
  end.

(** What a pass of the loop can return, and what it logs. *)
Lemma poll_once_returns (tr tr' : trace) (resp : response) :
  poll_once R up generation_id idea tr = (Ret (Some resp), tr') ->
  exists image_url data,
    success_body R image_url idea = Ret data /\
    resp = json_response data 200.
Proof.
  unfold poll_once. cbn [bind ret Monad_M get_trace emit lift].
  split_cases; try discriminate.
  intros H. injection H as <- _. eauto.
Qed.

Lemma poll_once_trace (tr : trace) :
  snd (poll_once R up generation_id idea tr) = tr ++ [get].
Proof.
  unfold poll_once, poll_get.
  cbn [bind ret Monad_M get_trace emit lift].
  split_cases; reflexivity.
Qed.

Lemma poll_returns (n : nat) :
  forall (tr tr' : trace) (resp : response),
    poll R up n generation_id idea tr = (Ret resp, tr') ->
    resp = timeout_response \/
    exists image_url data,
      success_body R image_url idea = Ret data /\
      resp = json_response data 200.
Proof.
  induction n as [|n IH]; intros tr tr' resp.
  - cbn. intros H. injection H as <- _. now left.
  - cbn [poll bind Monad_M].
    destruct (poll_once R up generation_id idea tr) as [[[r|]|e] tr1] eqn:E.
    + cbn. intros H. injection H as <- _. right.
      eapply poll_once_returns, E.
    + cbn [emit]. apply IH.
    + discriminate.
Qed.

Lemma poll_trace (n : nat) :
  forall tr : trace,
    exists ext, snd (poll R up n generation_id idea tr) = tr ++ ext.
Proof.
  induction n as [|n IH]; intros tr.
  - exists []. cbn. now rewrite app_nil_r.
  - cbn [poll bind Monad_M].
    pose proof (poll_once_trace tr) as Ht.
    destruct (poll_once R up generation_id idea tr) as [[[r|]|e] tr1];
      cbn [snd] in Ht; subst tr1.
    + now exists [get].
    + cbn [emit].
      destruct (IH ((tr ++ [get]) ++ [EvSleep 1])) as [ext ->].
      exists ([get] ++ [EvSleep 1] ++ ext). now rewrite <- !app_assoc.
    + now exists [get].
Qed.

End Poll.

(** *** Printing *)

Lemma prints_cons (R : Runtime) (args : list str) (lines : list (list str)) :
  prints R (args :: lines) = true ->
  py_print R args = Ret tt /\ prints R lines = true.
Proof.
  unfold prints. cbn [forallb]. intros H. apply andb_prop in H as [H1 H2].
  split; [|exact H2].
  destruct (py_print R args) as [[]|e]; [reflexivity|discriminate H1].
Qed.

Ltac use_prints H :=
  repeat match type of H with
  | prints _ (_ :: _) = true =>
      let H1 := fresh "Hprint" in
      apply prints_cons in H as [H1 H]
  end.

(** *** Job creation *)

Section Submit.

Variables (R : Runtime) (up : Upstream) (idea : pyval) (prompt : str).


Lemma submit_created (tr : trace) (text : str)
      (generation_data job generation_id : pyval) :
  prints R [making_line; status_line R 200; text_line text] = true ->
  creation_reply R up prompt = Ret (200%Z, text) ->
  json_loads R text = Ret generation_data ->
  getitem generation_data (lit "sdGenerationJob") = Ret job ->
  getitem job (lit "generationId") = Ret generation_id ->
  submit_and_poll R up idea prompt tr
  = poll R up 30 generation_id idea (tr ++ [creation R prompt]).
Proof.
  unfold submit_and_poll, creation_reply, creation.
  intros Hp H1 H2 H3 H4. use_prints Hp.
  cbn [bind ret Monad_M emit lift]. rewrite Hprint. rewrite H1.
  rewrite Hprint0, Hprint1.
  cbn [Z.eqb Pos.eqb negb]. now rewrite H2, H3, H4.
Qed.

Lemma submit_returns (tr tr' : trace) (resp : response) :
  submit_and_poll R up idea prompt tr = (Ret resp, tr') ->
  (exists st text, st <> 200%Z /\ resp = refusal st text) \/
  resp = timeout_response \/
  exists image_url data,
    success_body R image_url idea = Ret data /\
    resp = json_response data 200.
Proof.
  unfold submit_and_poll. cbn [bind ret Monad_M emit lift].
  destruct (py_print R making_line); [|discriminate].
  destruct (post_reply up _ _ _) as [[st text]|e]; [|discriminate].
  destruct (py_print R (status_line R st)); [|discriminate].
  destruct (py_print R (text_line text)); [|discriminate].
  destruct (st =? 200)%Z eqn:Hst; cbn [negb].
  - destruct (json_loads R text) as [gd|e]; [|discriminate].
    destruct (getitem gd _) as [job|e]; [|discriminate].
    destruct (getitem job _) as [gid|e]; [|discriminate].
    intros H. right. eapply poll_returns, H.
  - intros H. injection H as <- _. left. exists st, text.
    split; [now apply Z.eqb_neq | reflexivity].
Qed.

(** Once the announcement is printed, the creation request is the
    first thing a submission logs, whatever follows. *)
Lemma submit_trace (tr : trace) :
  py_print R making_line = Ret tt ->
  exists ext,
    snd (submit_and_poll R up idea prompt tr) = tr ++ creation R prompt :: ext.
Proof.
  intros Hp.
  unfold submit_and_poll, creation. cbn [bind ret Monad_M emit lift].
  rewrite Hp.
  destruct (post_reply up _ _ _) as [[st text]|e]; [|now exists []].
  destruct (py_print R (status_line R st)); [|now exists []].
  destruct (py_print R (text_line text)); [|now exists []].
  destruct (negb _); [now exists []|].
  destruct (json_loads R text) as [gd|e]; [|now exists []].
  destruct (getitem gd _) as [job|e]; [|now exists []].
  destruct (getitem job _) as [gid|e]; [|now exists []].
  destruct (poll_trace R up gid idea 30
              (tr ++ [EvPost generations_url (headers R) (payload prompt)]))
    as [ext ->].
  exists ext. now rewrite <- app_assoc.
Qed.

End Submit.

(** *** The whole handler *)

Section Generate.

Variables (R : Runtime) (up : Upstream).

(** An exception of the inner block, once its message is printed,
    becomes the 500 "API request failed". *)
Lemma api_error_answered (e : exn) (tr : trace) :
  py_print R (api_error_line R e) = Ret tt ->
  try_except (on_api_error R e) (on_error R) tr = (Ret (api_failure R e), tr).
Proof.
  intros Hp. unfold try_except, on_api_error.
  cbn [bind ret Monad_M lift]. now rewrite Hp.
Qed.

(** A request that passes validation and style lookup, its two
    diagnostic lines printed, goes to the image service; an exception
    from there on is handed to the [except] blocks. *)
Lemma generate_accepted (data idea art_style : pyval) (style_prompt : str)
      (tr : trace) :
  prints R [received_line R data; processing_line R idea art_style] = true ->
  dict_get data (lit "idea") PNone = Ret idea ->
  dict_get data (lit "artStyle") (PStr (lit "pixel")) = Ret art_style ->
  truthy idea = true ->
  style_prompt_for art_style = Ret style_prompt ->
  generate R up (Ret data) tr
  = match submit_and_poll R up idea (base_prompt R idea style_prompt) tr with
    | (Ret resp, tr') => (Ret resp, tr')
    | (Raise e, tr') => try_except (on_api_error R e) (on_error R) tr'
    end.
Proof.
  intros Hp H1 H2 H3 H4. use_prints Hp. unfold generate.
  unfold try_except at 1. cbn [bind ret Monad_M lift].
  rewrite Hprint, H1, H2, Hprint0, H3. cbn [negb].
  rewrite H4. unfold try_except at 1.
  destruct (submit_and_poll R up idea _ tr) as [[resp|e] tr']; reflexivity.
Qed.

(** Every response of a run is of one of four kinds: a 500 with an
    error message, the 400 of a request without idea, the relayed
    refusal of the image service, or the 200 built by [success_body]. *)
Lemma generate_returns (req : outcome pyval) (resp : response) (tr : trace) :
  handle R up req = (Ret resp, tr) ->
  (exists msg, resp = json_response (error_body msg) 500) \/
  (resp = no_idea_response /\
   exists data idea,
     req = Ret data /\ dict_get data (lit "idea") PNone = Ret idea /\
     truthy idea = false) \/
  (exists st text, st <> 200%Z /\ resp = refusal st text) \/
  (exists data idea image_url b,
     req = Ret data /\ dict_get data (lit "idea") PNone = Ret idea /\
     truthy idea = true /\
     success_body R image_url idea = Ret b /\
     resp = json_response b 200).
Proof.
  assert (Hon_error : forall e tr0,
             on_error R e tr0 = (Ret resp, tr) ->
             exists msg, resp = json_response (error_body msg) 500).
  { intros e tr0. unfold on_error. cbn [bind ret Monad_M lift].
    destruct (py_print R _); intros H; [|discriminate H].
    injection H as <- _. now eexists. }
  unfold handle, generate. unfold try_except at 1.
  cbn [bind ret Monad_M lift].
  destruct req as [data|e]; [|intros H; left; eauto].
  destruct (py_print R (received_line R data)); [|intros H; left; eauto].
  destruct (dict_get data (lit "idea") PNone) as [idea|e] eqn:Hidea;
    [|intros H; left; eauto].
  destruct (dict_get data (lit "artStyle") _) as [art_style|e];
    [|intros H; left; eauto].
  destruct (py_print R (processing_line R idea art_style));
    [|intros H; left; eauto].
  destruct (truthy idea) eqn:Htruthy; cbn [negb].
  2:{ intros H. injection H as <- _.
      right; left. split; [reflexivity|]. now exists data, idea. }
  destruct (style_prompt_for art_style) as [style_prompt|e];
    [|intros H; left; eauto].
  unfold try_except at 1.
  destruct (submit_and_poll R up idea _ []) as [[resp0|e] tr'] eqn:Hsub.
  - intros H. injection H as <- _.
    destruct (submit_returns _ _ _ _ _ _ _ Hsub)
      as [Href | [-> | (image_url & b & Hb & ->)]].
    + right; right; left. exact Href.
    + left. now eexists.
    + right; right; right. now exists data, idea, image_url, b.
  - unfold on_api_error. cbn [bind ret Monad_M lift].
    destruct (py_print R (api_error_line R e)).
    + intros H. injection H as <- _. left. now eexists.
    + intros H. left. eauto.
Qed.

(** The successful responses are those of [success_body] on a string
    idea. *)
Lemma generate_success (req : outcome pyval) (resp : response) (tr : trace) :
  handle R up req = (Ret resp, tr) ->
  successful resp ->
  exists data s image_url,
    req = Ret data /\
    dict_get data (lit "idea") PNone = Ret (PStr s) /\
    s <> [] /\
    resp = json_response
             (PDict [ (lit "imageUrl", image_url);
                      (lit "name", PStr (title (unicode R) s));
                      (lit "ticker",
                       PStr (spec_ticker (unicode R) (split s)));
                      (lit "description",
                       PStr (lit "Revolutionary " ++ s
                             ++ lit " token powered by advanced AI technology."));
                      (lit "socialLinks", social_links);
                      (lit "success", PBool true) ]) 200.
Proof.
  intros H Hs. apply generate_returns in H as Hcases.
  unfold successful in Hs.
  destruct Hcases as [(msg & ->) | [(-> & _) | [(st & text & _ & ->)
    | (data & idea & image_url & b & -> & Hidea & Ht & Hb & ->)]]].
  - cbn in Hs. discriminate.
  - cbn in Hs. discriminate.
  - cbn in Hs. discriminate.
  - apply success_body_inv in Hb as (s & -> & ->).
    exists data, s, image_url. repeat split; auto.
    destruct s; [discriminate|congruence].
Qed.

End Generate.

(** ** Properties of POST /api/generate *)

(** *** Validation *)




(** C10: an idea that is not empty but all whitespace passes validation
    (the answer is never the 400 of a missing idea), and a successful
    response to it carries the empty ticker. *)
Theorem blank_idea_accepted (R : Runtime) (up : Upstream) (data : pyval)
        (s : str) (resp : response) (tr : trace) :
  dict_get data (lit "idea") PNone = Ret (PStr s) ->
  s <> [] ->
  forallb is_space s = true ->
  handle R up (Ret data) = (Ret resp, tr) ->
  resp <> no_idea_response
  /\ (successful resp -> field (lit "ticker") (body resp) = Some (PStr [])).
Proof.
  intros Hidea Hne Hblank Hrun. split.
  - apply generate_returns in Hrun as Hcases.
    destruct Hcases as [(msg & ->) | [(_ & data' & idea & Hd & Hi & Ht)
      | [(st & text & _ & ->) | (d' & i' & u & b & _ & _ & _ & _ & ->)]]];
      try discriminate.
    injection Hd as <-. rewrite Hidea in Hi. injection Hi as <-.
    destruct s; [congruence|discriminate].
  - intros Hs.
    destruct (generate_success R up _ _ _ Hrun Hs)
      as (data' & s' & image_url & Hd & Hi & _ & ->).
    injection Hd as <-. rewrite Hidea in Hi. injection Hi as <-.
    unfold split. rewrite (split_from_blank s Hblank). reflexivity.
Qed.

Lemma blank_idea_accepted_witness :
  exists resp tr,
    handle mock_runtime (mock_upstream 1)
           (Ret (PDict (mock_request (lit "  ") None))) = (Ret resp, tr)
    /\ resp <> no_idea_response
    /\ successful resp
    /\ field (lit "ticker") (body resp) = Some (PStr []).
Proof.
  eexists. eexists. split; [vm_compute; reflexivity|].
  pose proof (blank_idea_accepted mock_runtime (mock_upstream 1)
                (PDict (mock_request (lit "  ") None)) (lit "  ")
                _ _ eq_refl ltac:(discriminate) eq_refl eq_refl) as [H1 H2].
  split; [exact H1|]. split; [reflexivity|]. apply H2. reflexivity.
Defined.

(** *** Requests that reach the image service *)

Section AcceptedRequest.

Variables (R : Runtime) (up : Upstream).
Variables (data idea art_style : pyval) (style_prompt : str).

Hypothesis Hidea : dict_get data (lit "idea") PNone = Ret idea.
Hypothesis Hart :
  dict_get data (lit "artStyle") (PStr (lit "pixel")) = Ret art_style.
Hypothesis Htruthy : truthy idea = true.
Hypothesis Hstyle : style_prompt_for art_style = Ret style_prompt.
Hypothesis Hprinted :
  prints R [received_line R data; processing_line R idea art_style] = true.

Local Abbreviation prompt := (base_prompt R idea style_prompt).


Section CreatedJob.

Variables (text : str) (generation_data job generation_id : pyval).

Hypothesis Hcreated : creation_reply R up prompt = Ret (200%Z, text).
Hypothesis Hlogged :
  prints R [making_line; status_line R 200; text_line text] = true.
Hypothesis Hloads : json_loads R text = Ret generation_data.
Hypothesis Hjob : getitem generation_data (lit "sdGenerationJob") = Ret job.
Hypothesis Hid : getitem job (lit "generationId") = Ret generation_id.

Lemma handle_created :
  handle R up (Ret data)
  = match poll R up 30 generation_id idea [creation R prompt] with
    | (Ret resp, tr') => (Ret resp, tr')
    | (Raise e, tr') => try_except (on_api_error R e) (on_error R) tr'
    end.
Proof.
  unfold handle.
  rewrite (generate_accepted R up _ _ _ _ [] Hprinted Hidea Hart Htruthy Hstyle).
  now rewrite (submit_created R up idea prompt [] text _ _ _
                 Hlogged Hcreated Hloads Hjob Hid).
Qed.

(** C1: in a run that reaches the poll loop, when none of the 30 status
    replies reports a completed job (each is a non-200 or a result in
    another state), the handler answers 500 with
    [{"error": "Timeout waiting for image"}] and has made exactly 30
    status queries. *)
Theorem timeout_after_thirty_polls :
  forallb (fun k => pending (reply_at R up generation_id k)) (seq 0 30) = true ->
  exists resp tr,
    handle R up (Ret data) = (Ret resp, tr)
    /\ status resp = 500%Z
    /\ body resp
       = PDict [ (lit "error", PStr (lit "Timeout waiting for image")) ]
    /\ queries tr = 30.
Proof.
  intros Hpending.
  exists timeout_response, ([creation R prompt] ++ rounds R generation_id 30).
  rewrite handle_created, poll_timeout.
  - repeat split.
  - intros k Hk. apply (forallb_seq _ 0 30 Hpending).
    change (queries [creation R prompt]) with 0 in Hk. lia.
Qed.


Lemma rounds_snoc (m : nat) :
  rounds R generation_id (S m)
  = rounds R generation_id m ++ [poll_get R generation_id; EvSleep 1].
Proof.
  induction m as [|m IH]; [reflexivity|].
  change (rounds R generation_id (S (S m)))
    with (poll_get R generation_id :: EvSleep 1
            :: rounds R generation_id (S m)).
  rewrite IH at 1. reflexivity.
Qed.

(** The run after [m] pending status replies: the loop goes on with the
    attempts that are left. *)
Lemma handle_skipped (m : nat) :
  m <= 30 ->
  forallb (fun k => pending (reply_at R up generation_id k)) (seq 0 m) = true ->
  handle R up (Ret data)
  = match poll R up (30 - m) generation_id idea
            (creation R prompt :: rounds R generation_id m) with
    | (Ret resp, tr') => (Ret resp, tr')
    | (Raise e, tr') => try_except (on_api_error R e) (on_error R) tr'
    end.
Proof.
  intros Hm Hpending. rewrite handle_created.
  replace 30 with (m + (30 - m)) at 1 by lia.
  rewrite poll_skip; [reflexivity|].
  intros k Hk. apply (forallb_seq _ 0 m Hpending).
  change (queries [creation R prompt]) with 0 in Hk. lia.
Qed.

(** C4: a status query answered with a status other than 200 neither
    ends the run nor decides its answer.  When query [m + 1] gets such
    a reply, the run goes on exactly like the loop with the [29 - m]
    attempts that are left: it has made [m + 1] queries, sleeps, and
    makes the next query if one is left (after the thirtieth it answers
    with the timeout). *)
Theorem failed_poll_skipped (m : nat) (st : Z) (js : outcome pyval) :
  m < 30 ->
  forallb (fun k => pending (reply_at R up generation_id k)) (seq 0 m) = true ->
  reply_at R up generation_id m = Ret (st, js) ->
  st <> 200%Z ->
  exists o ext,
    handle R up (Ret data)
    = (o, creation R prompt :: rounds R generation_id (S m) ++ ext)
    /\ queries (creation R prompt :: rounds R generation_id (S m)) = S m
    /\ handle R up (Ret data)
       = match poll R up (29 - m) generation_id idea
                 (creation R prompt :: rounds R generation_id (S m)) with
         | (Ret resp, tr') => (Ret resp, tr')
         | (Raise e, tr') => try_except (on_api_error R e) (on_error R) tr'
         end
    /\ (m < 29 -> exists ext', ext = poll_get R generation_id :: ext')
    /\ (m = 29 -> ext = [] /\ o = Ret timeout_response).
Proof.
  intros Hm Hpending Hreply Hst.
  assert (Hnext : forallb (fun k => pending (reply_at R up generation_id k))
                          (seq 0 (S m)) = true).
  { rewrite seq_S, forallb_app, Hpending. cbn [forallb Nat.add].
    rewrite Hreply. unfold pending.
    apply Z.eqb_neq in Hst. now rewrite Hst. }
  pose proof (handle_skipped (S m) ltac:(lia) Hnext) as Hrun.
  replace (30 - S m) with (29 - m) in Hrun by lia.
  assert (Hq : queries (creation R prompt :: rounds R generation_id (S m))
               = S m).
  { change (creation R prompt :: rounds R generation_id (S m))
      with ([creation R prompt] ++ rounds R generation_id (S m)).
    now rewrite queries_app, queries_rounds. }
  destruct (29 - m) as [|n] eqn:Hleft.
  - exists (Ret timeout_response), [].
    rewrite app_nil_r. repeat split; try assumption; try lia.
  - cbn [poll bind Monad_M] in Hrun.
    pose proof (poll_once_trace R up generation_id idea
                  (creation R prompt :: rounds R generation_id (S m))) as Ht.
    destruct (poll_once R up generation_id idea
                (creation R prompt :: rounds R generation_id (S m)))
      as [[[resp|]|e] tr1] eqn:Eonce; cbn [snd] in Ht; subst tr1.
    + exists (Ret resp), [poll_get R generation_id].
      split; [exact Hrun|]. split; [exact Hq|]. split.
      * rewrite Hrun. cbn [poll bind Monad_M]. now rewrite Eonce.
      * split; [intros _; now eexists | intros Hm'; lia].
    + cbn [emit] in Hrun.
      destruct (poll_trace R up generation_id idea n
                  (((creation R prompt :: rounds R generation_id (S m))
                      ++ [poll_get R generation_id]) ++ [EvSleep 1]))
        as [ext Hext].
      destruct (poll R up n generation_id idea _) as [[resp|e] tr2] eqn:Epoll;
        cbn [snd] in Hext; subst tr2.
      * exists (Ret resp), (poll_get R generation_id :: EvSleep 1 :: ext).
        split; [rewrite Hrun; f_equal; cbn [app];
                now rewrite <- !app_assoc|].
        split; [exact Hq|]. split.
        -- rewrite Hrun. cbn [poll bind Monad_M]. rewrite Eonce.
           cbn [emit]. now rewrite Epoll.
        -- split; [intros _; now eexists | intros Hm'; lia].
      * destruct (try_except (on_api_error R e) (on_error R) _)
          as [o tr3] eqn:Eh.
        assert (tr3 = ((creation R prompt :: rounds R generation_id (S m))
                         ++ [poll_get R generation_id]) ++ [EvSleep 1] ++ ext).
        { revert Eh. unfold try_except, on_api_error, on_error.
          cbn [bind ret Monad_M lift].
          destruct (py_print R (api_error_line R e)).
          - intros H. injection H as _ <-. now rewrite <- !app_assoc.
          - destruct (py_print R (detailed_error_line R e0));
              intros H; injection H as _ <-; now rewrite <- !app_assoc. }
        subst tr3.
        exists o, (poll_get R generation_id :: EvSleep 1 :: ext).
        split; [rewrite Hrun; f_equal; cbn [app];
                now rewrite <- !app_assoc|].
        split; [exact Hq|]. split.
        -- rewrite Hrun. cbn [poll bind Monad_M]. rewrite Eonce.
           cbn [emit]. rewrite Epoll. exact (eq_sym Eh).
        -- split; [intros _; now eexists | intros Hm'; lia].
    + destruct (try_except (on_api_error R e) (on_error R) _)
        as [o tr3] eqn:Eh.
      assert (tr3 = (creation R prompt :: rounds R generation_id (S m))
                      ++ [poll_get R generation_id]).
      { revert Eh. unfold try_except, on_api_error, on_error.
        cbn [bind ret Monad_M lift].
        destruct (py_print R (api_error_line R e)).
        - intros H. now injection H as _ <-.
        - destruct (py_print R (detailed_error_line R e0));
            intros H; now injection H as _ <-. }
      subst tr3.
      exists o, [poll_get R generation_id].
      split; [exact Hrun|]. split; [exact Hq|]. split.
      * rewrite Hrun. cbn [poll bind Monad_M]. rewrite Eonce.
        exact (eq_sym Eh).
      * split; [intros _; now eexists | intros Hm'; lia].
Qed.

End CreatedJob.

End AcceptedRequest.


Lemma timeout_after_thirty_polls_witness :
  exists resp tr,
    handle mock_runtime (mock_upstream 31)
           (Ret (PDict (mock_request (lit "Doge") None)))
    = (Ret resp, tr)
    /\ status resp = 500%Z
    /\ body resp
       = PDict [ (lit "error", PStr (lit "Timeout waiting for image")) ]
    /\ queries tr = 30.
Proof.
  exact (timeout_after_thirty_polls
           mock_runtime (mock_upstream 31)
           (PDict (mock_request (lit "Doge") None))
           (PStr (lit "Doge")) (PStr (lit "pixel"))
           (match lookup (lit "pixel") ART_STYLE_PROMPTS with
            | Some v => v
            | None => []
            end)
           eq_refl eq_refl eq_refl eq_refl eq_refl
           (lit "job") mock_job
           (PDict [ (lit "generationId", PStr (lit "gen-1")) ])
           (PStr (lit "gen-1"))
           eq_refl eq_refl eq_refl eq_refl eq_refl eq_refl).
Defined.


(** The first status query of the test double is answered 503; the run
    goes on and succeeds on the third query. *)
Lemma failed_poll_skipped_witness :
  exists o ext,
    handle mock_runtime (mock_upstream 3)
           (Ret (PDict (mock_request (lit "Doge") None)))
    = (o,
       creation mock_runtime
         (base_prompt mock_runtime (PStr (lit "Doge"))
            (match lookup (lit "pixel") ART_STYLE_PROMPTS with
             | Some v => v
             | None => []
             end))
         :: rounds mock_runtime (PStr (lit "gen-1")) 1 ++ ext)
    /\ exists ext', ext = poll_get mock_runtime (PStr (lit "gen-1")) :: ext'.
Proof.
  destruct (failed_poll_skipped
              mock_runtime (mock_upstream 3)
              (PDict (mock_request (lit "Doge") None))
              (PStr (lit "Doge")) (PStr (lit "pixel"))
              (match lookup (lit "pixel") ART_STYLE_PROMPTS with
               | Some v => v
               | None => []
               end)
              eq_refl eq_refl eq_refl eq_refl eq_refl
              (lit "job") mock_job
              (PDict [ (lit "generationId", PStr (lit "gen-1")) ])
              (PStr (lit "gen-1"))
              eq_refl eq_refl eq_refl eq_refl eq_refl
              0 503%Z (Raise (RuntimeExc (lit "Service Unavailable")))
              ltac:(lia) eq_refl eq_refl ltac:(discriminate))
    as (o & ext & Hrun & _ & _ & Hnext & _).
  exists o, ext. split; [exact Hrun|]. apply Hnext. lia.
Defined.

(** *** Prompt construction *)


Lemma style_prompt_for_hashable (art_style : pyval) :
  hashable art_style = true ->
  exists style_prompt,
    style_prompt_for art_style = Ret style_prompt
    /\ (forall key frag,
          art_style = PStr key ->
          lookup key ART_STYLE_PROMPTS = Some frag -> style_prompt = frag)
    /\ ((forall key, art_style = PStr key ->
                     lookup key ART_STYLE_PROMPTS = None) ->
        lookup (lit "pixel") ART_STYLE_PROMPTS = Some style_prompt).
Proof.
  intros H. unfold style_prompt_for.
  change (table_item ART_STYLE_PROMPTS (lit "pixel"))
    with (Ret (match lookup (lit "pixel") ART_STYLE_PROMPTS with
               | Some v => v
               | None => []
               end)).
  cbn [bind Monad_outcome].
  set (pixel := match lookup (lit "pixel") ART_STYLE_PROMPTS with
                | Some v => v
                | None => []
                end).
  assert (Hpixel : lookup (lit "pixel") ART_STYLE_PROMPTS = Some pixel)
    by reflexivity.
  destruct art_style; try discriminate; cbn [table_get];
    try (exists pixel; split; [reflexivity|];
         split; [intros key frag; discriminate | intros _; exact Hpixel]).
  destruct (lookup s ART_STYLE_PROMPTS) as [frag|] eqn:E.
  - exists frag. split; [reflexivity|]. split.
    + intros key frag' Hk. injection Hk as <-. congruence.
    + intros Hnone. specialize (Hnone s eq_refl). congruence.
  - exists pixel. split; [reflexivity|]. split.
    + intros key frag' Hk. injection Hk as <-. congruence.
    + intros _. exact Hpixel.
Qed.




(** *** Response assembly *)

Lemma spec_ticker_upper (U : UnicodeData) (ws : list str) :
  spec_ticker U ws = upper U (flat_map (firstn 1) (firstn 3 ws)).
Proof.
  unfold spec_ticker, upper.
  induction (firstn 3 ws) as [|w l IH]; [reflexivity|].
  cbn [flat_map]. now rewrite flat_map_app, IH.
Qed.

(** C5: the ticker of a successful response is the concatenation of the
    upper-cased first characters of the first three, or fewer,
    whitespace-separated words of idea: "Happy Moon Dog" gives "HMD",
    "Doge" gives "D", and of four or more words only the first three
    count. *)
Theorem ticker_is_initials (R : Runtime) :
  (forall (up : Upstream) (req : outcome pyval) (resp : response)
          (tr : trace),
      handle R up req = (Ret resp, tr) ->
      successful resp ->
      exists data s,
        req = Ret data
        /\ dict_get data (lit "idea") PNone = Ret (PStr s)
        /\ forall ws, words_of s ws ->
             field (lit "ticker") (body resp)
             = Some (PStr (spec_ticker (unicode R) ws)))
  /\ ticker R (PStr (lit "Happy Moon Dog")) = Ret (lit "HMD")
  /\ ticker R (PStr (lit "Doge")) = Ret (lit "D")
  /\ (forall (s w1 w2 w3 w4 : str) (rest : list str),
        words_of s (w1 :: w2 :: w3 :: w4 :: rest) ->
        ticker R (PStr s)
        = Ret (upper (unicode R) (firstn 1 w1)
               ++ upper (unicode R) (firstn 1 w2)
               ++ upper (unicode R) (firstn 1 w3))).
Proof.
  split; [|split; [|split]].
  - intros up req resp tr Hrun Hs.
    destruct (generate_success R up _ _ _ Hrun Hs)
      as (data & s & image_url & -> & Hidea & _ & ->).
    exists data, s. split; [reflexivity|]. split; [exact Hidea|].
    intros ws Hws. rewrite <- (words_of_split s ws Hws). reflexivity.
  - rewrite ticker_total. reflexivity.
  - rewrite ticker_total. reflexivity.
  - intros s w1 w2 w3 w4 rest Hws.
    rewrite ticker_total, (words_of_split s _ Hws).
    unfold spec_ticker. simpl. now rewrite app_nil_r.
Qed.

Lemma ticker_is_initials_witness :
  exists resp tr,
    handle mock_runtime (mock_upstream 2)
           (Ret (PDict (mock_request (lit "to the moon and back") None)))
    = (Ret resp, tr)
    /\ field (lit "ticker") (body resp) = Some (PStr (lit "TTM")).
Proof.
  eexists. eexists. split; [vm_compute; reflexivity|].
  destruct (proj1 (ticker_is_initials mock_runtime)
              (mock_upstream 2)
              (Ret (PDict (mock_request (lit "to the moon and back") None)))
              _ _ eq_refl eq_refl)
    as (data & s & Hreq & Hidea & Hticker).
  injection Hreq as <-. injection Hidea as <-.
  exact (Hticker _ (split_words_of (lit "to the moon and back"))).
Defined.

Lemma first_characters_length (ws : list str) :
  Forall (fun w => w <> []) ws ->
  List.length (flat_map (firstn 1) ws) = List.length ws.
Proof.
  induction 1 as [|w ws Hw _ IH]; [reflexivity|].
  destruct w; [congruence|]. simpl. f_equal. exact IH.
Qed.

Lemma initials_length (s : str) :
  List.length (initials s) = Nat.min 3 (List.length (split s)).
Proof.
  unfold initials. rewrite first_characters_length.
  - apply length_firstn.
  - apply Forall_firstn, split_nonempty.
Qed.

Lemma upper_ascii (U : UnicodeData) (s : str) :
  forallb is_ascii s = true -> upper U s = map ascii_capital s.
Proof.
  unfold upper. induction s as [|c s IH]; [reflexivity|].
  simpl. intros H. apply andb_prop in H as [Hc Hs].
  now rewrite (to_upper_full_ascii U c Hc), IH.
Qed.

(** C8, as the code has it: the ticker of a successful response is the
    upper-casing of the first characters of the leading words of idea,
    one per word and at most three of them.  When those first characters
    are ASCII each gives one character of the ticker, so the ticker has
    at most 3 characters; none of them is a lowercase letter, and they
    are uppercase letters when the words start with letters. *)
Theorem ticker_shape (R : Runtime) (up : Upstream) (req : outcome pyval)
        (resp : response) (tr : trace) :
  handle R up req = (Ret resp, tr) ->
  successful resp ->
  exists data s t,
    req = Ret data
    /\ dict_get data (lit "idea") PNone = Ret (PStr s)
    /\ field (lit "ticker") (body resp) = Some (PStr t)
    /\ t = upper (unicode R) (initials s)
    /\ List.length (initials s) = Nat.min 3 (List.length (split s))
    /\ (forallb is_ascii (initials s) = true ->
        List.length t = List.length (initials s)
        /\ List.length t <= 3
        /\ forallb (fun c => negb (is_ascii_lower c)) t = true
        /\ (forallb is_ascii_letter (initials s) = true ->
            forallb is_ascii_upper t = true)).
Proof.
  intros Hrun Hs.
  destruct (generate_success R up _ _ _ Hrun Hs)
    as (data & s & image_url & -> & Hidea & _ & ->).
  exists data, s, (upper (unicode R) (initials s)).
  split; [reflexivity|]. split; [exact Hidea|].
  split; [unfold initials; now rewrite <- spec_ticker_upper|].
  split; [reflexivity|]. split; [apply initials_length|].
  intros Hascii.
  rewrite (upper_ascii _ _ Hascii).
  rewrite length_map. split; [reflexivity|]. split.
  - rewrite initials_length. apply Nat.le_min_l.
  - split.
    + apply forallb_forall. intros c Hc. apply in_map_iff in Hc as (c0 & <- & _).
      now rewrite ascii_capital_not_lower.
    + intros Hletters. rewrite forallb_forall in Hletters.
      apply forallb_forall. intros c Hc.
      apply in_map_iff in Hc as (c0 & <- & Hc0).
      apply ascii_capital_upper, Hletters, Hc0.
Qed.

Lemma ticker_shape_witness :
  exists resp tr t,
    handle mock_runtime (mock_upstream 1)
           (Ret (PDict (mock_request (lit "happy 2 moon dog") None)))
    = (Ret resp, tr)
    /\ field (lit "ticker") (body resp) = Some (PStr t)
    /\ t = lit "H2M"
    /\ List.length t <= 3
    /\ forallb (fun c => negb (is_ascii_lower c)) t = true.
Proof.
  eexists. eexists. eexists. split; [vm_compute; reflexivity|].
  destruct (ticker_shape mock_runtime (mock_upstream 1)
              (Ret (PDict (mock_request (lit "happy 2 moon dog") None)))
              _ _ eq_refl eq_refl)
    as (data & s & t & Hreq & Hidea & Hticker & Ht & _ & Hascii).
  injection Hreq as <-. injection Hidea as <-.
  destruct (Hascii eq_refl) as (_ & Hlen & Hlower & _).
  subst t. split; [reflexivity|]. split; [reflexivity|].
  split; [exact Hlen | exact Hlower].
Defined.

(** The ticker of idea "ß ß 1" is "SSSS1": five characters, the
    last of them a digit. *)
Lemma ticker_five_characters :
  exists resp tr t,
    handle mock_runtime (mock_upstream 1)
           (Ret (PDict (mock_request [0xDF; 0x20; 0xDF; 0x20; 0x31]%N None)))
    = (Ret resp, tr)
    /\ successful resp
    /\ field (lit "ticker") (body resp) = Some (PStr t)
    /\ t = lit "SSSS1"
    /\ ~ List.length t <= 3
    /\ ~ Forall (fun c => is_ascii_upper c = true) t.
Proof.
  eexists. eexists. eexists. split; [vm_compute; reflexivity|].
  split; [reflexivity|]. split; [reflexivity|]. split; [reflexivity|].
  split.
  - simpl. lia.
  - intros H. rewrite Forall_forall in H.
    specialize (H 0x31%N). simpl in H.
    assert (Hf : is_ascii_upper 0x31%N = true) by (apply H; tauto).
    discriminate Hf.
Qed.

(** C9, as the code has it: title-casing the derived name again yields
    the same string when every character of idea is ASCII or, more
    generally, has simple case mappings (one-character title-case and
    lower-case forms, each left alone by its mapping and cased exactly
    when the character is). *)
Theorem title_idempotent_simple_case (U : UnicodeData) (s : str) :
  forallb (fun c => is_ascii c || case_stable U c) s = true ->
  title U (title U s) = title U s.
Proof.
  intros H. unfold title. apply do_title_stable_idem.
  revert H. apply forallb_impl. intros c Hc.
  apply orb_prop in Hc as [Hc|Hc]; [now apply ascii_case_stable | exact Hc].
Qed.

Lemma title_idempotent_simple_case_witness :
  title ucd_excerpt (title ucd_excerpt (lit "they're hAPPY moon-dogs 2day"))
  = title ucd_excerpt (lit "they're hAPPY moon-dogs 2day").
Proof.
  apply (title_idempotent_simple_case ucd_excerpt
           (lit "they're hAPPY moon-dogs 2day")).
  reflexivity.
Defined.

(** The name derived from idea <U+01F0, a> (small j with caron, then
    a) is <J, U+030C, a>; title-casing it again capitalises the a. *)
Lemma title_not_idempotent :
  exists resp tr name,
    handle mock_runtime (mock_upstream 1)
           (Ret (PDict (mock_request [0x1F0; 0x61]%N None)))
    = (Ret resp, tr)
    /\ field (lit "name") (body resp) = Some (PStr name)
    /\ name = title (unicode mock_runtime) [0x1F0; 0x61]%N
    /\ name = [0x4A; 0x30C; 0x61]%N
    /\ title (unicode mock_runtime) name = [0x4A; 0x30C; 0x41]%N
    /\ title (unicode mock_runtime) name <> name.
Proof.
  eexists. eexists. eexists. split; [vm_compute; reflexivity|].
  repeat split. discriminate.
Qed.

(** ** Every run of the handler *)

Section Runs.

Variables (R : Runtime) (up : Upstream).

(** How a poll loop of [n] attempts can end: with the timeout after
    [n] full passes, or in pass [k + 1] with the success response or an
    exception. *)
Lemma poll_runs (generation_id idea : pyval) (n : nat) :
  forall (tr tr' : trace) (o : outcome response),
    poll R up n generation_id idea tr = (o, tr') ->
    (o = Ret timeout_response /\ tr' = tr ++ rounds R generation_id n)
    \/ exists k,
         k < n
         /\ tr' = tr ++ rounds R generation_id k ++ [poll_get R generation_id]
         /\ ((exists image_url data,
                 success_body R image_url idea = Ret data
                 /\ o = Ret (json_response data 200))
             \/ exists e, o = Raise e).
Proof.
  induction n as [|n IH]; intros tr tr' o.
  - cbn [poll ret Monad_M]. intros H. injection H as <- <-. left.
    cbn [rounds]. now rewrite app_nil_r.
  - cbn [poll bind Monad_M].
    pose proof (poll_once_trace R up generation_id idea tr) as Ht.
    destruct (poll_once R up generation_id idea tr) as [[[r|]|e] tr1] eqn:E;
      cbn [snd] in Ht; subst tr1.
    + destruct (poll_once_returns R up generation_id idea _ _ _ E)
        as (u & b & Hb & ->).
      cbn [ret Monad_M]. intros H. injection H as <- <-. right. exists 0.
      split; [lia|]. split; [reflexivity|]. left. now exists u, b.
    + cbn [emit]. intros H. apply IH in H.
      destruct H as [[-> ->] | (k & Hk & -> & Ho)].
      * left. split; [reflexivity|]. cbn [rounds].
        now rewrite <- !app_assoc.
      * right. exists (S k). split; [lia|]. split; [|exact Ho].
        cbn [rounds]. now rewrite <- !app_assoc.
    + intros H. injection H as <- <-. right. exists 0.
      split; [lia|]. split; [reflexivity|]. right. now exists e.
Qed.

(** What the [except] blocks make of an exception: the trace is left
    as it is, and the run ends with a 500 or with the exception of the
    last error print. *)
Lemma on_error_outcome (e : exn) (tr tr' : trace) (o : outcome response) :
  on_error R e tr = (o, tr') -> tr' = tr /\ error_outcome R o.
Proof.
  unfold on_error. cbn [bind ret Monad_M lift].
  destruct (py_print R (detailed_error_line R e)) as [u|e'] eqn:Hp;
    intros H; injection H as <- <-; (split; [reflexivity|]).
  - left. now eexists.
  - right. now exists e, e'.
Qed.

Lemma api_error_outcome (e : exn) (tr tr' : trace) (o : outcome response) :
  try_except (on_api_error R e) (on_error R) tr = (o, tr') ->
  tr' = tr /\ error_outcome R o.
Proof.
  unfold try_except, on_api_error. cbn [bind ret Monad_M lift].
  destruct (py_print R (api_error_line R e)) as [u|e'].
  - intros H; injection H as <- <-. split; [reflexivity|]. left. now eexists.
  - apply on_error_outcome.
Qed.

Ltac failed_early :=
  let H := fresh in
  intros H; apply on_error_outcome in H as [-> ?]; now apply run_invalid.

Lemma handle_run_kind (req : outcome pyval) (o : outcome response)
      (tr : trace) :
  handle R up req = (o, tr) -> run_kind R up o tr.
Proof.
  unfold handle, generate. unfold try_except at 1.
  cbn [bind ret Monad_M lift].
  destruct req as [data|e]; [|failed_early].
  destruct (py_print R (received_line R data)); [|failed_early].
  destruct (dict_get data (lit "idea") PNone) as [idea|e]; [|failed_early].
  destruct (dict_get data (lit "artStyle") _) as [art_style|e];
    [|failed_early].
  destruct (py_print R (processing_line R idea art_style)); [|failed_early].
  destruct (truthy idea); cbn [negb].
  2:{ intros H; injection H as <- <-. apply run_no_idea. }
  destruct (style_prompt_for art_style) as [style_prompt|e]; [|failed_early].
  set (prompt := base_prompt R idea style_prompt).
  assert (Hstep : forall (c : outcome response * trace),
             match (let (o0, tr') := c in
                    match o0 with
                    | Ret a => (Ret a, tr')
                    | Raise e => on_api_error R e tr'
                    end) with
             | (Ret a, tr') => (Ret a, tr')
             | (Raise e0, tr') => on_error R e0 tr'
             end
             = match c with
               | (Ret a, tr') => (Ret a, tr')
               | (Raise e, tr') =>
                   try_except (on_api_error R e) (on_error R) tr'
               end).
  { intros [[r|e] T]; [reflexivity|]. unfold try_except.
    destruct (on_api_error R e T) as [[r|e0] T']; reflexivity. }
  unfold try_except at 1. rewrite Hstep. clear Hstep.
  unfold submit_and_poll. cbn [bind ret Monad_M emit lift app].
  fold (creation R prompt).
  destruct (py_print R making_line).
  2:{ intros H. apply api_error_outcome in H as [-> Ho].
      now apply run_invalid. }
  destruct (post_reply up _ _ _) as [[st text]|e] eqn:Hpost.
  2:{ intros H. apply api_error_outcome in H as [-> Ho].
      now apply run_no_job. }
  destruct (py_print R (status_line R st)).
  2:{ intros H. apply api_error_outcome in H as [-> Ho].
      now apply run_no_job. }
  destruct (py_print R (text_line text)).
  2:{ intros H. apply api_error_outcome in H as [-> Ho].
      now apply run_no_job. }
  destruct (st =? 200)%Z eqn:Hst; cbn [negb].
  2:{ intros H; injection H as <- <-.
      apply run_refused; [exact Hpost | now apply Z.eqb_neq]. }
  destruct (json_loads R text) as [gd|e].
  2:{ intros H. apply api_error_outcome in H as [-> Ho].
      now apply run_no_job. }
  destruct (getitem gd _) as [job|e].
  2:{ intros H. apply api_error_outcome in H as [-> Ho].
      now apply run_no_job. }
  destruct (getitem job _) as [gid|e].
  2:{ intros H. apply api_error_outcome in H as [-> Ho].
      now apply run_no_job. }
  destruct (poll R up 30 gid idea [creation R prompt]) as [o' tr'] eqn:Hpoll.
  apply poll_runs in Hpoll.
  destruct Hpoll as [[-> ->] | (k & Hk & -> & [(u & b & Hb & ->) | (e & ->)])].
  - intros H; injection H as <- <-. apply run_timeout.
  - intros H; injection H as <- <-.
    now apply (run_success R up prompt gid idea u b k).
  - intros H. apply api_error_outcome in H as [-> Ho].
    now apply run_poll_failed.
Qed.

(** The kinds of run that return a response. *)
Lemma returned_run_kind (req : outcome pyval) (resp : response) (tr : trace) :
  handle R up req = (Ret resp, tr) ->
  (exists msg, resp = json_response (error_body msg) 500)
  \/ resp = no_idea_response
  \/ (exists prompt st text,
         creation_reply R up prompt = Ret (st, text) /\ st <> 200%Z
         /\ resp = refusal st text /\ tr = [creation R prompt])
  \/ (exists prompt generation_id idea image_url data k,
         k < 30 /\ success_body R image_url idea = Ret data
         /\ resp = json_response data 200
         /\ tr = creation R prompt
                   :: rounds R generation_id k ++ [poll_get R generation_id]).
Proof.
  intros H. apply handle_run_kind in H.
  assert (Herr : error_outcome R (Ret resp) ->
                 exists msg, resp = json_response (error_body msg) 500).
  { intros [(msg & Hm) | (e & e' & Hm & _)]; [|discriminate Hm].
    injection Hm as ->. now exists msg. }
  inversion H as [o Ho | | prompt st text Hreply Hst | prompt o Ho
                  | prompt gid | prompt gid idea u b k Hk Hb
                  | prompt gid o k Hk Ho]; subst; auto.
  - right; right; left. now exists prompt, st, text.
  - left. now eexists.
  - right; right; right. now exists prompt, gid, idea, u, b, k.
Qed.

End Runs.

Lemma slept_app (tr tr' : trace) : slept (tr ++ tr') = (slept tr + slept tr')%Z.
Proof.
  induction tr as [|ev tr IH]; [reflexivity|].
  destruct ev; cbn [app slept]; rewrite IH; lia.
Qed.

Lemma slept_rounds (R : Runtime) (generation_id : pyval) (n : nat) :
  slept (rounds R generation_id n) = Z.of_nat n.
Proof.
  induction n as [|n IH]; [reflexivity|].
  cbn [rounds]. unfold poll_get. cbn [slept]. rewrite IH. lia.
Qed.

Lemma creations_app (tr tr' : trace) :
  creations (tr ++ tr') = creations tr + creations tr'.
Proof. unfold creations. now rewrite filter_app, length_app. Qed.

Lemma creations_rounds (R : Runtime) (generation_id : pyval) (n : nat) :
  creations (rounds R generation_id n) = 0.
Proof. induction n as [|n IH]; [reflexivity|exact IH]. Qed.

Lemma success_body_successful (R : Runtime) (image_url idea data : pyval) :
  success_body R image_url idea = Ret data ->
  successful (json_response data 200).
Proof.
  intros H. apply success_body_inv in H as (s & _ & ->). reflexivity.
Qed.

Lemma style_prompt_for_unhashable (art_style : pyval) :
  hashable art_style = false ->
  style_prompt_for art_style = Raise (TypeErrorUnhashable art_style).
Proof.
  intros H. unfold style_prompt_for.
  change (table_item ART_STYLE_PROMPTS (lit "pixel"))
    with (Ret (match lookup (lit "pixel") ART_STYLE_PROMPTS with
               | Some v => v
               | None => []
               end)).
  cbn [bind Monad_outcome].
  destruct art_style; try discriminate H; reflexivity.
Qed.

(** X1: an exception leaves the handler only when the error print of
    the outer [except] raises it.  Every other run returns a response;
    its status is 200 exactly when the body carries [success: true],
    and is otherwise 400, 500 or the status the image service gave to
    the job-creation request; a body that is not a success is
    [{"error": msg}] and nothing else. *)
Theorem handler_always_responds (R : Runtime) (up : Upstream)
        (req : outcome pyval) :
  (exists resp tr,
      handle R up req = (Ret resp, tr)
      /\ (status resp = 200%Z <-> successful resp)
      /\ (successful resp \/ exists msg, body resp = error_body msg)
      /\ (status resp = 200%Z \/ status resp = 400%Z \/ status resp = 500%Z
          \/ exists prompt text,
               creation_reply R up prompt = Ret (status resp, text)))
  \/ (exists e e' tr,
         handle R up req = (Raise e', tr)
         /\ py_print R (detailed_error_line R e) = Raise e').
Proof.
  destruct (handle R up req) as [[resp|e'] tr] eqn:Hrun.
  - left. exists resp, tr. split; [reflexivity|].
    destruct (returned_run_kind R up req resp tr Hrun)
      as [(msg & ->) | [-> | [(prompt & st & text & Hreply & Hst & -> & _)
         | (prompt & gid & idea & u & b & k & _ & Hb & -> & _)]]].
    + split; [split; intros H; discriminate H|].
      split; [right; now eexists|]. auto.
    + split; [split; intros H; discriminate H|].
      split; [right; now eexists|]. auto.
    + split; [split; intros H; [contradiction | discriminate H]|].
      split; [right; now eexists|].
      right; right; right. now exists prompt, text.
    + pose proof (success_body_successful R u idea b Hb) as Hs.
      split; [split; auto|]. split; [now left|]. now left.
  - right. apply handle_run_kind in Hrun.
    assert (Herr : error_outcome R (Raise e') ->
                   exists e, py_print R (detailed_error_line R e) = Raise e').
    { intros [(msg & Hm) | (e & e0 & Hm & Hp)]; [discriminate Hm|].
      injection Hm as ->. now exists e. }
    inversion Hrun as [o Ho | | | prompt o Ho | | | prompt gid o k Hk Ho];
      subst; destruct (Herr Ho) as [e He]; exists e, e'; eexists;
      (split; [reflexivity | exact He]).
Qed.

(** With a closed standard output every print raises, and the
    exception of the last error print leaves the handler. *)
Example handler_raises_when_stdout_closed :
  fst (handle (with_stdout mock_runtime closed_stdout) (mock_upstream 1)
         (Ret (PDict (mock_request (lit "Doge") None))))
  = Raise (RuntimeExc (lit "I/O operation on closed file")).
Proof. reflexivity. Qed.

(** X2: the 400 response "No idea provided" is given exactly to the
    JSON objects whose idea is absent or falsy (null, false, 0, the
    empty string, list or object) and whose two diagnostic prints
    return. *)
Theorem no_idea_iff_falsy (R : Runtime) (up : Upstream) (req : outcome pyval) :
  (exists resp,
      fst (handle R up req) = Ret resp
      /\ status resp = 400%Z
      /\ body resp = PDict [ (lit "error", PStr (lit "No idea provided")) ])
  <-> exists data idea art_style,
        req = Ret data
        /\ dict_get data (lit "idea") PNone = Ret idea
        /\ dict_get data (lit "artStyle") (PStr (lit "pixel")) = Ret art_style
        /\ truthy idea = false
        /\ prints R [received_line R data; processing_line R idea art_style]
           = true.
Proof.
  split.
  - intros ([st b] & H & Hst & Hb). cbn [status body] in Hst, Hb. subst st b.
    change (fst (handle R up req) = Ret no_idea_response) in H.
    destruct (handle R up req) as [o tr] eqn:Hrun.
    cbn [fst] in H. subst o.
    apply generate_returns in Hrun as Hcases.
    destruct Hcases as [(msg & Hm) | [(_ & data & idea & -> & Hidea & Hf)
      | [(st & text & _ & Hm) | (d' & i' & u & b & _ & _ & _ & _ & Hm)]]];
      try discriminate Hm.
    assert (Hfail : forall e T,
               on_error R e T = (Ret no_idea_response, tr) -> False).
    { intros e T. unfold on_error. cbn [bind ret Monad_M lift].
      destruct (py_print R _); discriminate. }
    revert Hrun. unfold handle, generate. unfold try_except at 1.
    cbn [bind ret Monad_M lift]. rewrite Hidea.
    destruct (py_print R (received_line R data)) as [[]|e] eqn:Hp1;
      [|intros H; now apply Hfail in H].
    destruct (dict_get data (lit "artStyle") _) as [art_style|e] eqn:Hart;
      [|intros H; now apply Hfail in H].
    destruct (py_print R (processing_line R idea art_style)) as [[]|e] eqn:Hp2;
      [|intros H; now apply Hfail in H].
    intros _. exists data, idea, art_style.
    repeat split; try assumption.
    unfold prints. cbn [forallb]. now rewrite Hp1, Hp2.
  - intros (data & idea & art_style & -> & Hidea & Hart & Hfalsy & Hp).
    use_prints Hp. exists no_idea_response.
    split; [|split; reflexivity].
    unfold handle, generate. unfold try_except at 1.
    cbn [bind ret Monad_M lift].
    now rewrite Hprint, Hidea, Hart, Hprint0, Hfalsy.
Qed.

Lemma no_idea_iff_falsy_witness :
  exists resp,
    fst (handle mock_runtime (mock_upstream 1)
           (Ret (PDict [ (lit "idea", PStr []);
                         (lit "artStyle", PStr (lit "anime")) ])))
    = Ret resp
    /\ status resp = 400%Z
    /\ body resp = PDict [ (lit "error", PStr (lit "No idea provided")) ].
Proof.
  apply (proj2 (no_idea_iff_falsy mock_runtime (mock_upstream 1) _)).
  exists (PDict [ (lit "idea", PStr []);
                  (lit "artStyle", PStr (lit "anime")) ]),
         (PStr []), (PStr (lit "anime")).
  repeat split.
Defined.

(** X3: the image service is contacted exactly for the JSON objects
    with a truthy idea and a hashable artStyle for which the three
    prints before the request return; every other request is answered
    without any outbound request. *)
Theorem upstream_contacted_iff_accepted (R : Runtime) (up : Upstream)
        (req : outcome pyval) :
  snd (handle R up req) <> []
  <-> exists data idea art_style,
        req = Ret data
        /\ dict_get data (lit "idea") PNone = Ret idea
        /\ truthy idea = true
        /\ dict_get data (lit "artStyle") (PStr (lit "pixel")) = Ret art_style
        /\ hashable art_style = true
        /\ prints R [received_line R data; processing_line R idea art_style;
                     making_line] = true.
Proof.
  split.
  - assert (Hfail : forall e, snd (on_error R e []) = []).
    { intros e. unfold on_error. cbn [bind ret Monad_M lift].
      destruct (py_print R _); reflexivity. }
    unfold handle, generate. unfold try_except at 1.
    cbn [bind ret Monad_M lift].
    destruct req as [data|e];
      [|intros H; exfalso; apply H; apply Hfail].
    destruct (py_print R (received_line R data)) as [[]|e] eqn:Hp1;
      [|intros H; exfalso; apply H; apply Hfail].
    destruct (dict_get data (lit "idea") PNone) as [idea|e] eqn:Hidea;
      [|intros H; exfalso; apply H; apply Hfail].
    destruct (dict_get data (lit "artStyle") _) as [art_style|e] eqn:Hart;
      [|intros H; exfalso; apply H; apply Hfail].
    destruct (py_print R (processing_line R idea art_style)) as [[]|e] eqn:Hp2;
      [|intros H; exfalso; apply H; apply Hfail].
    destruct (truthy idea) eqn:Ht; cbn [negb];
      [|intros H; exfalso; apply H; reflexivity].
    destruct (hashable art_style) eqn:Hh.
    2:{ rewrite (style_prompt_for_unhashable art_style Hh).
        intros H; exfalso; apply H; apply Hfail. }
    destruct (style_prompt_for_hashable art_style Hh) as (sp & Hsp & _).
    rewrite Hsp.
    destruct (py_print R making_line) as [[]|e] eqn:Hp3.
    + intros _. exists data, idea, art_style.
      repeat split; try assumption.
      unfold prints. cbn [forallb]. now rewrite Hp1, Hp2, Hp3.
    + unfold try_except at 1. unfold submit_and_poll.
      cbn [bind ret Monad_M emit lift]. rewrite Hp3.
      unfold on_api_error. cbn [bind ret Monad_M lift].
      destruct (py_print R (api_error_line R e));
        intros H; exfalso; apply H; [reflexivity | apply Hfail].
  - intros (data & idea & art_style & -> & Hidea & Ht & Hart & Hh & Hp).
    destruct (style_prompt_for_hashable art_style Hh) as (sp & Hsp & _).
    use_prints Hp.
    assert (Hp2 : prints R [received_line R data;
                            processing_line R idea art_style] = true).
    { unfold prints. cbn [forallb]. now rewrite Hprint, Hprint0. }
    unfold handle.
    rewrite (generate_accepted R up data idea art_style sp [] Hp2
               Hidea Hart Ht Hsp).
    destruct (submit_trace R up idea (base_prompt R idea sp) [] Hprint1)
      as [ext Hext].
    destruct (submit_and_poll R up idea _ []) as [[resp|e] tr'];
      cbn [snd] in Hext; subst tr'; [discriminate|].
    destruct (try_except _ _ _) as [o tr'] eqn:Eh.
    apply api_error_outcome in Eh as [-> _]. discriminate.
Qed.

Lemma upstream_contacted_iff_accepted_witness :
  snd (handle mock_runtime unreachable_upstream
         (Ret (PDict (mock_request (lit "Doge") (Some (PInt 3))))))
  <> [].
Proof.
  apply (proj2 (upstream_contacted_iff_accepted
                  mock_runtime unreachable_upstream _)).
  exists (PDict (mock_request (lit "Doge") (Some (PInt 3)))),
         (PStr (lit "Doge")), (PInt 3).
  repeat split.
Defined.



Lemma counts_of_poll_trace (R : Runtime) (prompt : str) (generation_id : pyval)
      (k : nat) (tail : trace) :
  queries (creation R prompt :: rounds R generation_id k ++ tail)
  = k + queries tail
  /\ creations (creation R prompt :: rounds R generation_id k ++ tail)
     = 1 + creations tail
  /\ slept (creation R prompt :: rounds R generation_id k ++ tail)
     = (Z.of_nat k + slept tail)%Z.
Proof.
  change (creation R prompt :: rounds R generation_id k ++ tail)
    with ([creation R prompt] ++ rounds R generation_id k ++ tail).
  rewrite !queries_app, !creations_app, !slept_app.
  rewrite queries_rounds, creations_rounds, slept_rounds.
  repeat split.
Qed.


(** X5: the outbound requests of a run are strictly sequential.  A run
    sends nothing, or one job-creation request followed by status
    queries that all go to the status URL of the created job with the
    same headers, each but a last decisive one followed by a sleep of
    one second; after 30 queries and 30 sleeps it stops. *)
Theorem run_trace_shape (R : Runtime) (up : Upstream) (req : outcome pyval) :
  snd (handle R up req) = []
  \/ exists prompt,
       snd (handle R up req) = [creation R prompt]
       \/ exists generation_id,
            snd (handle R up req)
            = creation R prompt :: rounds R generation_id 30
            \/ exists k,
                 k < 30
                 /\ snd (handle R up req)
                    = creation R prompt
                        :: rounds R generation_id k
                           ++ [poll_get R generation_id].
Proof.
  destruct (handle R up req) as [o tr] eqn:Hrun.
  apply handle_run_kind in Hrun. cbn [snd].
  destruct Hrun as [o Ho | | prompt st text Hreply Hst | prompt o Ho
                    | prompt gid | prompt gid idea u b k Hk Hb
                    | prompt gid o k Hk Ho];
    try (now left);
    right; exists prompt; try (now left);
    right; exists gid; try (now left);
    right; now exists k.
Qed.

(** X6: a run creates at most one job, makes at most 30 status queries
    and sleeps at most 30 seconds; it sleeps one second per query,
    except after a query that ends the run. *)
Theorem run_bounds (R : Runtime) (up : Upstream) (req : outcome pyval) :
  creations (snd (handle R up req)) <= 1
  /\ queries (snd (handle R up req)) <= 30
  /\ (slept (snd (handle R up req)) <= 30)%Z
  /\ (slept (snd (handle R up req))
      = Z.of_nat (queries (snd (handle R up req)))
      \/ slept (snd (handle R up req))
         = (Z.of_nat (queries (snd (handle R up req))) - 1)%Z).
Proof.
  destruct (handle R up req) as [o tr] eqn:Hrun.
  apply handle_run_kind in Hrun. cbn [snd].
  destruct Hrun as [o Ho | | prompt st text Hreply Hst | prompt o Ho
                    | prompt gid | prompt gid idea u b k Hk Hb
                    | prompt gid o k Hk Ho];
    try (cbn; repeat split; try lia; now left).
  - destruct (counts_of_poll_trace R prompt gid k [poll_get R gid])
      as (Hq & Hc & Hs).
    rewrite Hq, Hc, Hs. cbn [queries creations slept filter is_get is_post
                               poll_get List.length].
    repeat split; lia.
  - destruct (counts_of_poll_trace R prompt gid k [poll_get R gid])
      as (Hq & Hc & Hs).
    rewrite Hq, Hc, Hs. cbn [queries creations slept filter is_get is_post
                               poll_get List.length].
    repeat split; lia.
Qed.

(** X7: a successful response is sent right after the status query
    that reported completion: the run has created one job, made between
    1 and 30 queries and slept one second less than it made queries. *)
Theorem success_cost (R : Runtime) (up : Upstream) (req : outcome pyval)
        (resp : response) (tr : trace) :
  handle R up req = (Ret resp, tr) ->
  successful resp ->
  creations tr = 1
  /\ 1 <= queries tr <= 30
  /\ slept tr = (Z.of_nat (queries tr) - 1)%Z
  /\ exists generation_id, last tr (EvSleep 0) = poll_get R generation_id.
Proof.
  intros Hrun Hs. unfold successful in Hs.
  destruct (returned_run_kind R up req resp tr Hrun)
    as [(msg & ->) | [-> | [(prompt & st & text & _ & _ & -> & _)
       | (prompt & gid & idea & u & b & k & Hk & Hb & -> & ->)]]];
    try (cbn in Hs; discriminate Hs).
  destruct (counts_of_poll_trace R prompt gid k [poll_get R gid])
    as (Hq & Hc & Hsl).
  rewrite Hq, Hc, Hsl. cbn [queries creations slept filter is_get is_post
                              poll_get List.length].
  repeat split; try lia. exists gid.
  change (creation R prompt :: rounds R gid k ++ [poll_get R gid])
    with ((creation R prompt :: rounds R gid k) ++ [poll_get R gid]).
  apply last_last.
Qed.

Lemma success_cost_witness :
  exists resp tr,
    handle mock_runtime (mock_upstream 4)
           (Ret (PDict (mock_request (lit "Doge") None))) = (Ret resp, tr)
    /\ creations tr = 1
    /\ queries tr = 4
    /\ slept tr = 3%Z.
Proof.
  eexists. eexists. split; [vm_compute; reflexivity|].
  destruct (success_cost mock_runtime (mock_upstream 4)
              (Ret (PDict (mock_request (lit "Doge") None)))
              _ _ eq_refl eq_refl) as (Hc & _ & _ & _).
  split; [exact Hc|]. split; reflexivity.
Defined.

(** ** Failures after the job is created *)

Section CreatedJobFailures.

Variables (R : Runtime) (up : Upstream).
Variables (data idea art_style : pyval) (style_prompt : str).
Variables (text : str) (generation_data job generation_id : pyval).

Hypothesis Hidea : dict_get data (lit "idea") PNone = Ret idea.
Hypothesis Hart :
  dict_get data (lit "artStyle") (PStr (lit "pixel")) = Ret art_style.
Hypothesis Htruthy : truthy idea = true.
Hypothesis Hstyle : style_prompt_for art_style = Ret style_prompt.
Hypothesis Hprinted :
  prints R [received_line R data; processing_line R idea art_style] = true.
Hypothesis Hcreated :
  creation_reply R up (base_prompt R idea style_prompt) = Ret (200%Z, text).
Hypothesis Hlogged :
  prints R [making_line; status_line R 200; text_line text] = true.
Hypothesis Hloads : json_loads R text = Ret generation_data.
Hypothesis Hjob : getitem generation_data (lit "sdGenerationJob") = Ret job.
Hypothesis Hid : getitem job (lit "generationId") = Ret generation_id.

Local Abbreviation prompt := (base_prompt R idea style_prompt).
Local Abbreviation reply := (reply_at R up generation_id).
Local Abbreviation get := (poll_get R generation_id).

(** The run when the first [m] status replies are pending and pass
    [m + 1] ends with [o]. *)
Lemma handle_decided (m : nat) (o : outcome (option response)) :
  m < 30 ->
  forallb (fun k => pending (reply k)) (seq 0 m) = true ->
  fst (poll_once R up generation_id idea
         (creation R prompt :: rounds R generation_id m)) = o ->
  handle R up (Ret data)
  = match o with
    | Ret (Some resp) =>
        (Ret resp, creation R prompt :: rounds R generation_id m ++ [get])
    | Ret None =>
        match poll R up (29 - m) generation_id idea
                (creation R prompt :: rounds R generation_id (S m)) with
        | (Ret resp, tr') => (Ret resp, tr')
        | (Raise e, tr') => try_except (on_api_error R e) (on_error R) tr'
        end
    | Raise e =>
        try_except (on_api_error R e) (on_error R)
          (creation R prompt :: rounds R generation_id m ++ [get])
    end.
Proof.
  intros Hm Hpending Ho.
  rewrite (handle_skipped R up data idea art_style style_prompt
             Hidea Hart Htruthy Hstyle Hprinted
             text generation_data job generation_id
             Hcreated Hlogged Hloads Hjob Hid m (Nat.lt_le_incl _ _ Hm)
             Hpending).
  replace (30 - m) with (S (29 - m)) by lia.
  cbn [poll bind Monad_M app].
  pose proof (poll_once_trace R up generation_id idea
                (creation R prompt :: rounds R generation_id m)) as Ht.
  destruct (poll_once R up generation_id idea
              (creation R prompt :: rounds R generation_id m))
    as [o' tr1].
  cbn [fst snd] in Ho, Ht. subst o' tr1.
  destruct o as [[resp|]|e]; cbn [ret Monad_M emit app]; try reflexivity.
  rewrite rounds_snoc, <- app_assoc. reflexivity.
Qed.

Lemma queries_before (m : nat) :
  queries (creation R prompt :: rounds R generation_id m) = m.
Proof.
  destruct (counts_of_poll_trace R prompt generation_id m []) as (Hq & _).
  rewrite app_nil_r in Hq. rewrite Hq. apply Nat.add_0_r.
Qed.

Lemma queries_decided (m : nat) :
  queries (creation R prompt :: rounds R generation_id m ++ [get]) = S m.
Proof.
  destruct (counts_of_poll_trace R prompt generation_id m [get]) as (Hq & _).
  rewrite Hq. cbn. lia.
Qed.

(** X8: unlike a non-200 reply, an exception in a status query ends the
    run.  When query [m + 1] raises (the request itself, or reading the
    JSON of a 200 reply) and the line that reports the exception is
    printed, the handler answers 500 "API request failed" with the text
    of the exception after exactly [m + 1] queries. *)
Theorem poll_exception_aborts (m : nat) (e : exn) :
  m < 30 ->
  forallb (fun k => pending (reply k)) (seq 0 m) = true ->
  reply m = Raise e \/ reply m = Ret (200%Z, Raise e) ->
  prints R [api_error_line R e] = true ->
  exists resp tr,
    handle R up (Ret data) = (Ret resp, tr)
    /\ status resp = 500%Z
    /\ body resp
       = PDict [ (lit "error",
                  PStr (lit "API request failed: " ++ str_of_exn R e)) ]
    /\ tr = creation R prompt :: rounds R generation_id m ++ [get]
    /\ queries tr = S m.
Proof.
  intros Hm Hpending Hreply Hp. use_prints Hp.
  exists (api_failure R e),
         (creation R prompt :: rounds R generation_id m ++ [get]).
  split; [|repeat split; apply queries_decided].
  rewrite (handle_decided m (Raise e) Hm Hpending).
  - now apply api_error_answered.
  - unfold poll_once. cbn [bind ret Monad_M get_trace emit lift].
    rewrite queries_before. fold (reply m).
    destruct Hreply as [-> | ->]; reflexivity.
Qed.

(** X9: a job reported COMPLETE with an empty list of images is not a
    success and not a timeout: taking the first image raises an
    IndexError, and the handler, once it has printed the line that
    reports it, answers 500 "API request failed" with the text of that
    exception. *)
Theorem complete_without_images (m : nat) (result by_pk : pyval) :
  m < 30 ->
  forallb (fun k => pending (reply k)) (seq 0 m) = true ->
  reply m = Ret (200%Z, Ret result) ->
  getitem result (lit "generations_by_pk") = Ret by_pk ->
  getitem by_pk (lit "status") = Ret (PStr (lit "COMPLETE")) ->
  getitem by_pk (lit "generated_images") = Ret (PList []) ->
  prints R [api_error_line R (IndexError (PList []))] = true ->
  exists resp tr,
    handle R up (Ret data) = (Ret resp, tr)
    /\ status resp = 500%Z
    /\ body resp
       = PDict [ (lit "error",
                  PStr (lit "API request failed: "
                        ++ str_of_exn R (IndexError (PList [])))) ]
    /\ queries tr = S m.
Proof.
  intros Hm Hpending Hreply H1 H2 H3 Hp. use_prints Hp.
  exists (api_failure R (IndexError (PList []))),
         (creation R prompt :: rounds R generation_id m ++ [get]).
  split; [|repeat split; apply queries_decided].
  rewrite (handle_decided m (Raise (IndexError (PList []))) Hm Hpending).
  - now apply api_error_answered.
  - unfold poll_once. cbn [bind ret Monad_M get_trace emit lift].
    rewrite queries_before. fold (reply m). rewrite Hreply.
    cbn [fst snd Z.eqb Pos.eqb]. rewrite H1, H2.
    cbn [eq_str]. rewrite str_eqb_refl. now rewrite H3.
Qed.

(** X10: an idea that is truthy but not a string (a number, [true], a
    list) passes validation, and the job is created and polled; when
    the job completes, [idea.title()] raises an AttributeError and the
    handler, once it has printed the line that reports it, answers 500
    "API request failed" instead of the result. *)
Theorem non_string_idea_fails_on_completion
        (m : nat) (result by_pk images first image_url : pyval) :
  match idea with PStr _ => false | _ => true end = true ->
  m < 30 ->
  forallb (fun k => pending (reply k)) (seq 0 m) = true ->
  reply m = Ret (200%Z, Ret result) ->
  getitem result (lit "generations_by_pk") = Ret by_pk ->
  getitem by_pk (lit "status") = Ret (PStr (lit "COMPLETE")) ->
  getitem by_pk (lit "generated_images") = Ret images ->
  getitem0 images = Ret first ->
  getitem first (lit "url") = Ret image_url ->
  prints R [api_error_line R (AttributeError idea (lit "title"))] = true ->
  exists resp tr,
    handle R up (Ret data) = (Ret resp, tr)
    /\ status resp = 500%Z
    /\ body resp
       = PDict [ (lit "error",
                  PStr (lit "API request failed: "
                        ++ str_of_exn R (AttributeError idea (lit "title")))) ]
    /\ queries tr = S m.
Proof.
  intros Hns Hm Hpending Hreply H1 H2 H3 H4 H5 Hp. use_prints Hp.
  exists (api_failure R (AttributeError idea (lit "title"))),
         (creation R prompt :: rounds R generation_id m ++ [get]).
  split; [|repeat split; apply queries_decided].
  rewrite (handle_decided m (Raise (AttributeError idea (lit "title")))
             Hm Hpending).
  - now apply api_error_answered.
  - unfold poll_once. cbn [bind ret Monad_M get_trace emit lift].
    rewrite queries_before. fold (reply m). rewrite Hreply.
    cbn [fst snd Z.eqb Pos.eqb]. rewrite H1, H2.
    cbn [eq_str]. rewrite str_eqb_refl. rewrite H3, H4, H5.
    destruct idea; try discriminate Hns; reflexivity.
Qed.

(** X11: a run that reaches the poll loop and times out has slept 30
    seconds: the handler sleeps after the thirtieth query too, and only
    then answers. *)
Theorem timeout_after_thirty_sleeps :
  forallb (fun k => pending (reply k)) (seq 0 30) = true ->
  exists resp tr,
    handle R up (Ret data) = (Ret resp, tr)
    /\ status resp = 500%Z
    /\ body resp
       = PDict [ (lit "error", PStr (lit "Timeout waiting for image")) ]
    /\ tr = creation R prompt :: rounds R generation_id 30
    /\ slept tr = 30%Z
    /\ last tr (EvSleep 0) = EvSleep 1.
Proof.
  intros Hpending.
  exists timeout_response, (creation R prompt :: rounds R generation_id 30).
  split; [|repeat split].
  rewrite (handle_created R up data idea art_style style_prompt
             Hidea Hart Htruthy Hstyle Hprinted
             text generation_data job generation_id
             Hcreated Hlogged Hloads Hjob Hid).
  rewrite poll_timeout; [reflexivity|].
  intros k Hk. apply (forallb_seq _ 0 30 Hpending).
  change (queries [creation R prompt]) with 0 in Hk. lia.
Qed.

End CreatedJobFailures.

Lemma poll_exception_aborts_witness :
  exists resp tr,
    handle mock_runtime (flaky_upstream 3)
           (Ret (PDict (mock_request (lit "Doge") None)))
    = (Ret resp, tr)
    /\ status resp = 500%Z
    /\ body resp = PDict [ (lit "error", PStr (lit "API request failed: error")) ]
    /\ queries tr = 3.
Proof.
  destruct (poll_exception_aborts
              mock_runtime (flaky_upstream 3)
              (PDict (mock_request (lit "Doge") None))
              (PStr (lit "Doge")) (PStr (lit "pixel"))
              (match lookup (lit "pixel") ART_STYLE_PROMPTS with
               | Some v => v
               | None => []
               end)
              (lit "job") mock_job
              (PDict [ (lit "generationId", PStr (lit "gen-1")) ])
              (PStr (lit "gen-1"))
              eq_refl eq_refl eq_refl eq_refl eq_refl eq_refl eq_refl eq_refl
              eq_refl eq_refl
              2 (RuntimeExc (lit "Connection reset by peer"))
              ltac:(lia) eq_refl (or_introl eq_refl) eq_refl)
    as (resp & tr & Hrun & Hst & Hbody & _ & Hq).
  exists resp, tr. repeat split; assumption.
Defined.

Lemma complete_without_images_witness :
  exists resp tr,
    handle mock_runtime imageless_upstream
           (Ret (PDict (mock_request (lit "Doge") None)))
    = (Ret resp, tr)
    /\ status resp = 500%Z
    /\ body resp = PDict [ (lit "error", PStr (lit "API request failed: error")) ]
    /\ queries tr = 1.
Proof.
  exact (complete_without_images
           mock_runtime imageless_upstream
           (PDict (mock_request (lit "Doge") None))
           (PStr (lit "Doge")) (PStr (lit "pixel"))
           (match lookup (lit "pixel") ART_STYLE_PROMPTS with
            | Some v => v
            | None => []
            end)
           (lit "job") mock_job
           (PDict [ (lit "generationId", PStr (lit "gen-1")) ])
           (PStr (lit "gen-1"))
           eq_refl eq_refl eq_refl eq_refl eq_refl eq_refl eq_refl eq_refl
           eq_refl eq_refl
           0 (mock_result (lit "COMPLETE") [])
           (PDict [ (lit "status", PStr (lit "COMPLETE"));
                    (lit "generated_images", PList []) ])
           ltac:(lia) eq_refl eq_refl eq_refl eq_refl eq_refl eq_refl).
Defined.

Lemma non_string_idea_fails_on_completion_witness :
  exists resp tr,
    handle mock_runtime (mock_upstream 2)
           (Ret (PDict [ (lit "idea", PInt 7) ]))
    = (Ret resp, tr)
    /\ status resp = 500%Z
    /\ body resp = PDict [ (lit "error", PStr (lit "API request failed: error")) ]
    /\ queries tr = 2.
Proof.
  exact (non_string_idea_fails_on_completion
           mock_runtime (mock_upstream 2)
           (PDict [ (lit "idea", PInt 7) ])
           (PInt 7) (PStr (lit "pixel"))
           (match lookup (lit "pixel") ART_STYLE_PROMPTS with
            | Some v => v
            | None => []
            end)
           (lit "job") mock_job
           (PDict [ (lit "generationId", PStr (lit "gen-1")) ])
           (PStr (lit "gen-1"))
           eq_refl eq_refl eq_refl eq_refl eq_refl eq_refl eq_refl eq_refl
           eq_refl eq_refl
           1
           (mock_result (lit "COMPLETE")
              [ mock_image (lit "https://cdn.example/a.png");
                mock_image (lit "https://cdn.example/b.png") ])
           (PDict [ (lit "status", PStr (lit "COMPLETE"));
                    (lit "generated_images",
                     PList [ mock_image (lit "https://cdn.example/a.png");
                             mock_image (lit "https://cdn.example/b.png") ]) ])
           (PList [ mock_image (lit "https://cdn.example/a.png");
                    mock_image (lit "https://cdn.example/b.png") ])
           (mock_image (lit "https://cdn.example/a.png"))
           (PStr (lit "https://cdn.example/a.png"))
           eq_refl ltac:(lia) eq_refl eq_refl eq_refl eq_refl eq_refl eq_refl
           eq_refl eq_refl).
Defined.

Lemma timeout_after_thirty_sleeps_witness :
  exists resp tr,
    handle mock_runtime (mock_upstream 31)
           (Ret (PDict (mock_request (lit "Doge") None)))
    = (Ret resp, tr)
    /\ status resp = 500%Z
    /\ body resp
       = PDict [ (lit "error", PStr (lit "Timeout waiting for image")) ]
    /\ slept tr = 30%Z
    /\ last tr (EvSleep 0) = EvSleep 1.
Proof.
  destruct (timeout_after_thirty_sleeps
           mock_runtime (mock_upstream 31)
           (PDict (mock_request (lit "Doge") None))
           (PStr (lit "Doge")) (PStr (lit "pixel"))
           (match lookup (lit "pixel") ART_STYLE_PROMPTS with
            | Some v => v
            | None => []
            end)
           (lit "job") mock_job
           (PDict [ (lit "generationId", PStr (lit "gen-1")) ])
           (PStr (lit "gen-1"))
           eq_refl eq_refl eq_refl eq_refl eq_refl eq_refl eq_refl eq_refl
           eq_refl eq_refl
           eq_refl)
    as (resp & tr & Hrun & Hst & Hbody & _ & Hslept & Hlast).
  exists resp, tr. repeat split; assumption.
Defined.

(** ** Failures of the job-creation request *)

(** X12: once the request is announced, an exception before the poll
    loop ends the run with a 500 and without any status query.  When
    the job-creation request raises, or printing its status or text
    raises, or it is answered 200 with a text from which the job id
    cannot be read (not JSON, or without [sdGenerationJob] or
    [generationId]), and the line that reports the exception is
    printed, the handler answers 500 "API request failed" with the text
    of the exception; the creation request is all it has sent. *)
Theorem creation_unreadable (R : Runtime) (up : Upstream)
        (data idea art_style : pyval) (style_prompt : str) (e : exn) :
  dict_get data (lit "idea") PNone = Ret idea ->
  dict_get data (lit "artStyle") (PStr (lit "pixel")) = Ret art_style ->
  truthy idea = true ->
  style_prompt_for art_style = Ret style_prompt ->
  prints R [ received_line R data; processing_line R idea art_style;
             making_line; api_error_line R e ] = true ->
  creation_reply R up (base_prompt R idea style_prompt) = Raise e
  \/ (exists st text,
         creation_reply R up (base_prompt R idea style_prompt)
         = Ret (st, text)
         /\ (py_print R (status_line R st) = Raise e
             \/ (py_print R (status_line R st) = Ret tt
                 /\ py_print R (text_line text) = Raise e)))
  \/ (exists text,
         creation_reply R up (base_prompt R idea style_prompt)
         = Ret (200%Z, text)
         /\ prints R [status_line R 200; text_line text] = true
         /\ (json_loads R text = Raise e
             \/ exists generation_data,
                  json_loads R text = Ret generation_data
                  /\ (getitem generation_data (lit "sdGenerationJob") = Raise e
                      \/ exists job,
                           getitem generation_data (lit "sdGenerationJob")
                           = Ret job
                           /\ getitem job (lit "generationId") = Raise e))) ->
  exists resp tr,
    handle R up (Ret data) = (Ret resp, tr)
    /\ status resp = 500%Z
    /\ body resp
       = PDict [ (lit "error",
                  PStr (lit "API request failed: " ++ str_of_exn R e)) ]
    /\ tr = [creation R (base_prompt R idea style_prompt)]
    /\ queries tr = 0.
Proof.
  intros Hidea Hart Ht Hstyle Hp Hcase. use_prints Hp.
  assert (Hp2 : prints R [received_line R data;
                          processing_line R idea art_style] = true).
  { unfold prints. cbn [forallb]. now rewrite Hprint, Hprint0. }
  exists (api_failure R e), [creation R (base_prompt R idea style_prompt)].
  split; [|repeat split].
  unfold handle.
  rewrite (generate_accepted R up data idea art_style style_prompt []
             Hp2 Hidea Hart Ht Hstyle).
  assert (Hsub : submit_and_poll R up idea (base_prompt R idea style_prompt) []
                 = (Raise e, [creation R (base_prompt R idea style_prompt)])).
  { unfold submit_and_poll. cbn [bind ret Monad_M emit lift app].
    rewrite Hprint1. unfold creation_reply in Hcase.
    destruct Hcase as [-> | [(st & text & -> & Hlog)
                            | (text & -> & Hlog & Hjson)]].
    - reflexivity.
    - destruct Hlog as [-> | [-> ->]]; reflexivity.
    - use_prints Hlog. rewrite Hprint3, Hprint4.
      cbn [Z.eqb Pos.eqb negb].
      destruct Hjson as [-> | (gd & -> & Hjob)]; [reflexivity|].
      destruct Hjob as [-> | (job & -> & ->)]; reflexivity. }
  rewrite Hsub. now apply api_error_answered.
Qed.

Lemma creation_unreadable_witness :
  exists resp tr,
    handle mock_runtime unreachable_upstream
           (Ret (PDict (mock_request (lit "Doge") None)))
    = (Ret resp, tr)
    /\ status resp = 500%Z
    /\ body resp = PDict [ (lit "error", PStr (lit "API request failed: error")) ]
    /\ queries tr = 0.
Proof.
  destruct (creation_unreadable
              mock_runtime unreachable_upstream
              (PDict (mock_request (lit "Doge") None))
              (PStr (lit "Doge")) (PStr (lit "pixel"))
              (match lookup (lit "pixel") ART_STYLE_PROMPTS with
               | Some v => v
               | None => []
               end)
              (RuntimeExc (lit "Cannot connect to host"))
              eq_refl eq_refl eq_refl eq_refl eq_refl (or_introl eq_refl))
    as (resp & tr & Hrun & Hst & Hbody & _ & Hq).
  exists resp, tr. repeat split; assumption.
Defined.

(** ** What the responses and requests carry *)

(** X13: the idea of an accepted request goes into the prompt unchanged:
    when the three prints before the request return, the prompt sent to
    the image service is the fixed opening followed by the idea and a
    comma. *)
Theorem prompt_carries_idea (R : Runtime) (up : Upstream)
        (data art_style : pyval) (s : str) :
  dict_get data (lit "idea") PNone = Ret (PStr s) ->
  s <> [] ->
  dict_get data (lit "artStyle") (PStr (lit "pixel")) = Ret art_style ->
  hashable art_style = true ->
  prints R [ received_line R data; processing_line R (PStr s) art_style;
             making_line ] = true ->
  exists prompt rest,
    sent_prompt (snd (handle R up (Ret data))) = Some prompt
    /\ prompt
       = lit "detailed cryptocurrency mascot logo of a " ++ s ++ lit ","
         ++ rest.
Proof.
  intros Hidea Hs Hart Hh Hp. use_prints Hp.
  assert (Hp2 : prints R [received_line R data;
                          processing_line R (PStr s) art_style] = true).
  { unfold prints. cbn [forallb]. now rewrite Hprint, Hprint0. }
  destruct (style_prompt_for_hashable art_style Hh) as (sp & Hsp & _).
  assert (Ht : truthy (PStr s) = true) by (destruct s; [congruence|reflexivity]).
  exists (base_prompt R (PStr s) sp). eexists. split.
  - unfold handle.
    rewrite (generate_accepted R up data (PStr s) art_style sp []
               Hp2 Hidea Hart Ht Hsp).
    destruct (submit_trace R up (PStr s) (base_prompt R (PStr s) sp) [] Hprint1)
      as [ext Hext].
    destruct (submit_and_poll R up (PStr s) _ []) as [[resp|e] tr'];
      cbn [snd] in *; subst tr'; [reflexivity|].
    destruct (try_except _ _ _) as [o tr'] eqn:Eh.
    apply api_error_outcome in Eh as [-> _]. reflexivity.
  - unfold base_prompt. cbn [fmt]. reflexivity.
Qed.

Lemma prompt_carries_idea_witness :
  exists prompt rest,
    sent_prompt
      (snd (handle mock_runtime (mock_upstream 1)
              (Ret (PDict (mock_request (lit "Happy Moon Dog") None)))))
    = Some prompt
    /\ prompt
       = lit "detailed cryptocurrency mascot logo of a Happy Moon Dog,"
         ++ rest.
Proof.
  destruct (prompt_carries_idea
              mock_runtime (mock_upstream 1)
              (PDict (mock_request (lit "Happy Moon Dog") None))
              (PStr (lit "pixel")) (lit "Happy Moon Dog")
              eq_refl ltac:(discriminate) eq_refl eq_refl eq_refl)
    as (prompt & rest & Hsent & Hprompt).
  exists prompt, rest. split; [exact Hsent | exact Hprompt].
Defined.

Lemma status_200_successful (R : Runtime) (up : Upstream)
      (req : outcome pyval) (resp : response) (tr : trace) :
  handle R up req = (Ret resp, tr) ->
  status resp = 200%Z ->
  successful resp.
Proof.
  intros Hrun Hst.
  destruct (returned_run_kind R up req resp tr Hrun)
    as [(msg & ->) | [-> | [(prompt & st & text & _ & Hne & -> & _)
       | (prompt & gid & idea & u & b & k & _ & Hb & -> & _)]]];
    try discriminate Hst.
  - contradiction.
  - exact (success_body_successful R u idea b Hb).
Qed.

(** X14: a 200 response is always the complete result and nothing but
    it: six fields in this order, the name and ticker derived from the
    idea, the description the fixed sentence around the idea, the same
    three social-link labels; and the idea was a non-empty string. *)
Theorem success_response_shape (R : Runtime) (up : Upstream)
        (req : outcome pyval) (resp : response) (tr : trace) :
  handle R up req = (Ret resp, tr) ->
  status resp = 200%Z ->
  exists data s image_url,
    req = Ret data
    /\ dict_get data (lit "idea") PNone = Ret (PStr s)
    /\ s <> []
    /\ body resp
       = PDict [ (lit "imageUrl", image_url);
                 (lit "name", PStr (title (unicode R) s));
                 (lit "ticker", PStr (spec_ticker (unicode R) (split s)));
                 (lit "description",
                  PStr (lit "Revolutionary " ++ s
                        ++ lit " token powered by advanced AI technology."));
                 (lit "socialLinks",
                  PList [ PStr (lit "Twitter Account");
                          PStr (lit "Telegram Group");
                          PStr (lit "Website") ]);
                 (lit "success", PBool true) ].
Proof.
  intros Hrun Hst.
  pose proof (status_200_successful R up req resp tr Hrun Hst) as Hs.
  destruct (generate_success R up req resp tr Hrun Hs)
    as (data & s & image_url & Hreq & Hidea & Hne & ->).
  now exists data, s, image_url.
Qed.

Lemma success_response_shape_witness :
  exists resp tr,
    handle mock_runtime (mock_upstream 1)
           (Ret (PDict (mock_request (lit "Doge") None))) = (Ret resp, tr)
    /\ field (lit "description") (body resp)
       = Some (PStr (lit "Revolutionary Doge token powered by advanced AI technology.")).
Proof.
  eexists. eexists. split; [vm_compute; reflexivity|].
  destruct (success_response_shape
              mock_runtime (mock_upstream 1)
              (Ret (PDict (mock_request (lit "Doge") None)))
              _ _ eq_refl eq_refl)
    as (data & s & image_url & Hreq & Hidea & _ & Hbody).
  injection Hreq as <-. injection Hidea as <-.
  cbn [body json_response] in Hbody |- *. reflexivity.
Defined.

(** X15: whatever the image service replies, a request whose idea is
    not a string is never answered with a 200. *)
Theorem non_string_idea_never_succeeds (R : Runtime) (up : Upstream)
        (data idea : pyval) (resp : response) (tr : trace) :
  dict_get data (lit "idea") PNone = Ret idea ->
  match idea with PStr _ => false | _ => true end = true ->
  handle R up (Ret data) = (Ret resp, tr) ->
  status resp <> 200%Z /\ ~ successful resp.
Proof.
  intros Hidea Hns Hrun.
  assert (Hnot : ~ successful resp).
  { intros Hs.
    destruct (generate_success R up _ resp tr Hrun Hs)
      as (data' & s & image_url & Hreq & Hidea' & _).
    injection Hreq as <-. rewrite Hidea in Hidea'. injection Hidea' as ->.
    discriminate Hns. }
  split; [|exact Hnot].
  intros Hst. apply Hnot.
  exact (status_200_successful R up _ resp tr Hrun Hst).
Qed.

Lemma non_string_idea_never_succeeds_witness :
  exists resp tr,
    handle mock_runtime (mock_upstream 1)
           (Ret (PDict [ (lit "idea", PList [PStr (lit "Doge")]) ]))
    = (Ret resp, tr)
    /\ status resp <> 200%Z.
Proof.
  eexists. eexists. split; [vm_compute; reflexivity|].
  apply (non_string_idea_never_succeeds
           mock_runtime (mock_upstream 1)
           (PDict [ (lit "idea", PList [PStr (lit "Doge")]) ])
           (PList [PStr (lit "Doge")]) _ _ eq_refl eq_refl eq_refl).
Defined.

(** ** Replies the handler never reads *)

Lemma field_getitem (obj : pyval) (key : str) (v : pyval) :
  getitem obj key = Ret v -> field key obj = Some v.
Proof.
  destruct obj; simpl; try discriminate.
  destruct (lookup key d); congruence.
Qed.

Section Agreement.

Variables (R : Runtime) (up1 up2 : Upstream) (generation_id idea : pyval).

Lemma poll_once_ext (tr : trace) :
  reply_at R up1 generation_id (queries tr)
  = reply_at R up2 generation_id (queries tr) ->
  poll_once R up1 generation_id idea tr = poll_once R up2 generation_id idea tr.
Proof.
  unfold poll_once, reply_at. cbn [bind ret Monad_M get_trace emit lift].
  now intros ->.
Qed.

(** A pass falls through only on a pending reply. *)
Lemma poll_once_none_pending (tr tr' : trace) :
  poll_once R up1 generation_id idea tr = (Ret None, tr') ->
  pending (reply_at R up1 generation_id (queries tr)) = true.
Proof.
  unfold poll_once, reply_at, pending.
  cbn [bind ret Monad_M get_trace emit lift].
  destruct (get_reply up1 (queries tr) _ _) as [[st js]|e]; [|discriminate].
  cbn [fst snd]. destruct (st =? 200)%Z; [|reflexivity].
  destruct js as [result|e]; [|discriminate].
  destruct (getitem result (lit "generations_by_pk")) as [by_pk|e] eqn:E1;
    [|discriminate].
  rewrite (field_getitem _ _ _ E1).
  destruct (getitem by_pk (lit "status")) as [state|e] eqn:E2; [|discriminate].
  rewrite (field_getitem _ _ _ E2).
  destruct (eq_str state (lit "COMPLETE")); [|reflexivity].
  destruct (getitem result _); [|discriminate].
  destruct (getitem _ (lit "generated_images")); [|discriminate].
  destruct (getitem0 _); [|discriminate].
  destruct (getitem _ (lit "url")); [|discriminate].
  destruct (success_body R _ idea); discriminate.
Qed.

Hypothesis Hagree :
  forall k,
    (forall j, j < k -> pending (reply_at R up1 generation_id j) = true) ->
    reply_at R up1 generation_id k = reply_at R up2 generation_id k.

Lemma poll_agree (n : nat) :
  forall tr : trace,
    (forall j, j < queries tr ->
               pending (reply_at R up1 generation_id j) = true) ->
    poll R up1 n generation_id idea tr = poll R up2 n generation_id idea tr.
Proof.
  induction n as [|n IH]; intros tr Hbefore; [reflexivity|].
  cbn [poll bind Monad_M].
  rewrite <- (poll_once_ext tr (Hagree (queries tr) Hbefore)).
  pose proof (poll_once_trace R up1 generation_id idea tr) as Ht.
  destruct (poll_once R up1 generation_id idea tr) as [[[r|]|e] tr1] eqn:E;
    try reflexivity.
  cbn [snd] in Ht. subst tr1. cbn [emit]. apply IH.
  intros j Hj. rewrite !queries_app in Hj.
  change (queries [poll_get R generation_id]) with 1 in Hj.
  change (queries [EvSleep 1]) with 0 in Hj.
  destruct (Nat.eq_dec j (queries tr)) as [->|Hne].
  - exact (poll_once_none_pending tr _ E).
  - apply Hbefore. lia.
Qed.

End Agreement.

(** X16: the loop stops at the first status reply that is not pending
    and reads nothing after it: two image services that give the same
    reply to the job-creation request and the same status replies up
    to and including the first one that is not pending lead to the same
    response and the same trace. *)
Theorem later_replies_unread (R : Runtime) (up1 up2 : Upstream)
        (req : outcome pyval) :
  (forall url hdrs json,
      post_reply up1 url hdrs json = post_reply up2 url hdrs json) ->
  (forall k url hdrs,
      (forall j, j < k -> pending (get_reply up1 j url hdrs) = true) ->
      get_reply up1 k url hdrs = get_reply up2 k url hdrs) ->
  handle R up1 req = handle R up2 req.
Proof.
  intros Hpost Hget.
  unfold handle, generate, try_except. cbn [bind ret Monad_M lift].
  destruct req as [data|e]; [|reflexivity].
  destruct (dict_get data (lit "idea") PNone) as [idea|e]; [|reflexivity].
  destruct (dict_get data (lit "artStyle") _) as [art_style|e];
    [|reflexivity].
  destruct (truthy idea); cbn [negb]; [|reflexivity].
  destruct (style_prompt_for art_style) as [style_prompt|e]; [|reflexivity].
  unfold submit_and_poll. cbn [bind ret Monad_M emit lift app].
  rewrite Hpost.
  destruct (post_reply up2 _ _ _) as [[st text]|e]; [|reflexivity].
  destruct (negb (st =? 200)%Z); [reflexivity|].
  destruct (json_loads R text) as [gd|e]; [|reflexivity].
  destruct (getitem gd _) as [job|e]; [|reflexivity].
  destruct (getitem job _) as [gid|e]; [|reflexivity].
  rewrite (poll_agree R up1 up2 gid idea).
  - reflexivity.
  - intros k Hk. unfold reply_at in *. now apply Hget.
  - intros j Hj. cbn in Hj. lia.
Qed.

Lemma later_replies_unread_witness :
  handle mock_runtime (mock_upstream 2)
         (Ret (PDict (mock_request (lit "Doge") None)))
  = handle mock_runtime
      {| post_reply := post_reply (mock_upstream 2);
         get_reply := fun k url hdrs =>
           if Nat.ltb k 2 then get_reply (mock_upstream 2) k url hdrs
           else Raise (RuntimeExc (lit "Cannot connect to host")) |}
      (Ret (PDict (mock_request (lit "Doge") None))).
Proof.
  apply (later_replies_unread mock_runtime (mock_upstream 2)).
  - reflexivity.
  - intros k url hdrs Hbefore.
    destruct k as [|[|k]]; [reflexivity | reflexivity |].
    specialize (Hbefore 1 ltac:(lia)). discriminate Hbefore.
Defined.

(** ** Name and ticker of an ASCII idea *)

Lemma ascii_letter_not_space (c : char) :
  is_ascii_letter c = true -> is_space c = false.
Proof.
  unfold is_ascii_letter, is_ascii_upper, is_ascii_lower, is_space, in_range.
  intros H.
  assert (Hc : (65 <= c <= 90)%N \/ (97 <= c <= 122)%N).
  { apply orb_prop in H as [H|H]; apply andb_prop in H as [H1 H2];
      apply N.leb_le in H1; apply N.leb_le in H2; lia. }
  clear H.
  repeat match goal with
  | |- context [(?a <=? ?b)%N] =>
      destruct (N.leb_spec a b); try lia; cbn [andb orb]
  | |- context [(?a =? ?b)%N] =>
      destruct (N.eqb_spec a b); try lia; cbn [andb orb]
  end;
  try reflexivity.
Qed.

Lemma ascii_space_not_letter (c : char) :
  is_space c = true -> is_ascii_letter c = false.
Proof.
  intros H. destruct (is_ascii_letter c) eqn:E; [|reflexivity].
  rewrite (ascii_letter_not_space c E) in H. discriminate H.
Qed.

Lemma ascii_capital_space (c : char) :
  is_space (ascii_capital c) = is_space c.
Proof.
  unfold ascii_capital. destruct (is_ascii_lower c) eqn:E; [|reflexivity].
  assert (Hl : is_ascii_letter c = true)
    by (unfold is_ascii_letter; rewrite E; apply orb_true_r).
  rewrite (ascii_letter_not_space c Hl).
  apply ascii_letter_not_space. clear Hl. bools.
Qed.

Lemma ascii_small_space (c : char) :
  is_space (ascii_small c) = is_space c.
Proof.
  unfold ascii_small. destruct (is_ascii_upper c) eqn:E; [|reflexivity].
  assert (Hl : is_ascii_letter c = true)
    by (unfold is_ascii_letter; now rewrite E).
  rewrite (ascii_letter_not_space c Hl).
  apply ascii_letter_not_space. clear Hl. bools.
Qed.

Lemma ascii_small_capital (c : char) :
  ascii_small (ascii_capital c) = ascii_small c.
Proof. unfold ascii_small, ascii_capital. bools. Qed.

Section AsciiTitle.

Variable U : UnicodeData.

Lemma do_title_ascii_step (before rest : str) (p : bool) (c : char) :
  is_ascii c = true ->
  do_title U before p (c :: rest)
  = (if p then ascii_small c else ascii_capital c)
      :: do_title U (c :: before) (is_ascii_letter c) rest.
Proof.
  intros H. cbn [do_title]. rewrite (is_cased_ascii U c H).
  destruct p.
  - now rewrite (lower_in_context_ascii U before rest c H).
  - now rewrite (to_title_full_ascii U c H).
Qed.

Lemma do_title_ascii_small (s : str) :
  forall (before : str) (p : bool),
    forallb is_ascii s = true ->
    map ascii_small (do_title U before p s) = map ascii_small s.
Proof.
  induction s as [|c s IH]; intros before p H; [reflexivity|].
  cbn [forallb] in H. apply andb_prop in H as [Hc Hs].
  rewrite (do_title_ascii_step before s p c Hc). cbn [map].
  rewrite IH by assumption. f_equal.
  destruct p; [apply ascii_small_idem | apply ascii_small_capital].
Qed.

(** The first characters of the words of a title-cased ASCII string
    are the capitals of those of the string. *)
Lemma first_chars_title (s : str) :
  forall (before : str) (p in_word : bool),
    forallb is_ascii s = true ->
    (p = true -> in_word = true) ->
    first_chars in_word (do_title U before p s)
    = map ascii_capital (first_chars in_word s).
Proof.
  induction s as [|c s IH]; intros before p in_word H Hp; [reflexivity|].
  cbn [forallb] in H. apply andb_prop in H as [Hc Hs].
  rewrite (do_title_ascii_step before s p c Hc). cbn [first_chars].
  assert (Hsp : is_space (if p then ascii_small c else ascii_capital c)
                = is_space c).
  { destruct p; [apply ascii_small_space | apply ascii_capital_space]. }
  rewrite Hsp. destruct (is_space c) eqn:Esp.
  - apply IH; [assumption|].
    rewrite (ascii_space_not_letter c Esp). discriminate.
  - destruct in_word.
    + apply IH; auto.
    + destruct p; [specialize (Hp eq_refl); discriminate Hp|].
      cbn [map]. f_equal. apply IH; auto.
Qed.

End AsciiTitle.

Lemma first_chars_split_from (s : str) :
  forall acc : str,
    flat_map (firstn 1) (split_from acc s)
    = firstn 1 acc
      ++ first_chars (match acc with [] => false | _ => true end) s.
Proof.
  induction s as [|c s IH]; intros acc.
  - destruct acc; reflexivity.
  - cbn [split_from first_chars]. destruct (is_space c).
    + destruct acc as [|a acc].
      * rewrite IH. reflexivity.
      * cbn [flat_map]. rewrite IH. reflexivity.
    + rewrite IH. destruct acc as [|a acc]; reflexivity.
Qed.

Lemma first_characters_firstn (n : nat) (ws : list str) :
  Forall (fun w => w <> []) ws ->
  flat_map (firstn 1) (firstn n ws) = firstn n (flat_map (firstn 1) ws).
Proof.
  intros H. revert n. induction H as [|w ws Hw _ IH]; intros n.
  - destruct n; reflexivity.
  - destruct n; [reflexivity|]. destruct w; [congruence|].
    cbn [firstn flat_map app]. f_equal. apply IH.
Qed.

Lemma initials_first_chars (s : str) :
  initials s = firstn 3 (first_chars false s).
Proof.
  unfold initials. rewrite (first_characters_firstn 3 _ (split_nonempty s)).
  unfold split. now rewrite first_chars_split_from.
Qed.

Lemma first_chars_in (s : str) :
  forall (in_word : bool) (c : char),
    In c (first_chars in_word s) -> In c s.
Proof.
  induction s as [|a s IH]; intros in_word c; [intros []|].
  cbn [first_chars]. destruct (is_space a); [right; eauto|].
  destruct in_word; [right; eauto|].
  intros [->|H]; [now left | right; eauto].
Qed.

Lemma in_firstn {A} (n : nat) (l : list A) (x : A) :
  In x (firstn n l) -> In x l.
Proof.
  revert l. induction n as [|n IH]; intros [|a l]; cbn; try tauto.
  intros [->|H]; [now left | right; auto].
Qed.

Lemma initials_of_ascii (s : str) :
  forallb is_ascii s = true -> forallb is_ascii (initials s) = true.
Proof.
  intros H. rewrite forallb_forall in *. intros c Hc.
  rewrite initials_first_chars in Hc.
  apply H, (first_chars_in s false), (in_firstn 3), Hc.
Qed.

(** X17: for an ASCII idea the ticker is made of the first characters
    of the first three words of the name: name and ticker of a
    successful response agree. *)
Theorem ticker_from_name (R : Runtime) (up : Upstream) (req : outcome pyval)
        (resp : response) (tr : trace) :
  handle R up req = (Ret resp, tr) ->
  successful resp ->
  exists data s name,
    req = Ret data
    /\ dict_get data (lit "idea") PNone = Ret (PStr s)
    /\ field (lit "name") (body resp) = Some (PStr name)
    /\ (forallb is_ascii s = true ->
        field (lit "ticker") (body resp) = Some (PStr (initials name))).
Proof.
  intros Hrun Hs.
  destruct (generate_success R up req resp tr Hrun Hs)
    as (data & s & image_url & -> & Hidea & _ & ->).
  exists data, s, (title (unicode R) s).
  split; [reflexivity|]. split; [exact Hidea|]. split; [reflexivity|].
  intros Hascii. cbn [body json_response field lookup].
  change (str_eqb (lit "ticker") (lit "imageUrl")) with false.
  change (str_eqb (lit "ticker") (lit "name")) with false.
  change (str_eqb (lit "ticker") (lit "ticker")) with true.
  cbv iota. do 2 f_equal.
  rewrite spec_ticker_upper. fold (initials s).
  rewrite (upper_ascii _ _ (initials_of_ascii s Hascii)).
  rewrite !initials_first_chars. unfold title.
  rewrite (first_chars_title (unicode R) s [] false false Hascii);
    [|discriminate].
  now rewrite firstn_map.
Qed.

Lemma ticker_from_name_witness :
  exists resp tr,
    handle mock_runtime (mock_upstream 1)
           (Ret (PDict (mock_request (lit "happy moon-dog 2day now") None)))
    = (Ret resp, tr)
    /\ field (lit "name") (body resp)
       = Some (PStr (lit "Happy Moon-Dog 2Day Now"))
    /\ field (lit "ticker") (body resp) = Some (PStr (lit "HM2")).
Proof.
  eexists. eexists. split; [vm_compute; reflexivity|].
  destruct (ticker_from_name
              mock_runtime (mock_upstream 1)
              (Ret (PDict (mock_request (lit "happy moon-dog 2day now") None)))
              _ _ eq_refl eq_refl)
    as (data & s & name & Hreq & Hidea & Hname & Hticker).
  injection Hreq as <-. injection Hidea as <-.
  vm_compute in Hname. injection Hname as <-.
  split; [reflexivity|]. exact (Hticker eq_refl).
Defined.

(** X18: for an ASCII idea the name is the idea with only the case of
    letters changed: same length, and equal to the idea once both are
    lower-cased. *)
Theorem name_is_idea_recased (R : Runtime) (up : Upstream)
        (req : outcome pyval) (resp : response) (tr : trace) :
  handle R up req = (Ret resp, tr) ->
  successful resp ->
  exists data s name,
    req = Ret data
    /\ dict_get data (lit "idea") PNone = Ret (PStr s)
    /\ field (lit "name") (body resp) = Some (PStr name)
    /\ (forallb is_ascii s = true ->
        map ascii_small name = map ascii_small s
        /\ List.length name = List.length s).
Proof.
  intros Hrun Hs.
  destruct (generate_success R up req resp tr Hrun Hs)
    as (data & s & image_url & -> & Hidea & _ & ->).
  exists data, s, (title (unicode R) s).
  split; [reflexivity|]. split; [exact Hidea|]. split; [reflexivity|].
  intros Hascii.
  pose proof (do_title_ascii_small (unicode R) s [] false Hascii) as H.
  split; [exact H|].
  apply (f_equal (@List.length _)) in H. now rewrite !length_map in H.
Qed.

Lemma name_is_idea_recased_witness :
  exists resp tr,
    handle mock_runtime (mock_upstream 1)
           (Ret (PDict (mock_request (lit "hAPPY moon-dog") None)))
    = (Ret resp, tr)
    /\ field (lit "name") (body resp) = Some (PStr (lit "Happy Moon-Dog"))
    /\ map ascii_small (lit "Happy Moon-Dog") = lit "happy moon-dog".
Proof.
  eexists. eexists. split; [vm_compute; reflexivity|].
  destruct (name_is_idea_recased
              mock_runtime (mock_upstream 1)
              (Ret (PDict (mock_request (lit "hAPPY moon-dog") None)))
              _ _ eq_refl eq_refl)
    as (data & s & name & Hreq & Hidea & Hname & Hrecased).
  injection Hreq as <-. injection Hidea as <-.
  vm_compute in Hname. injection Hname as <-.
  split; [reflexivity|]. exact (proj1 (Hrecased eq_refl)).
Defined.

(** ** The empty ticker *)

Lemma split_from_word_nonempty (s : str) :
  forall acc : str, acc <> [] -> split_from acc s <> [].
Proof.
  induction s as [|c s IH]; intros acc Hacc; cbn [split_from].
  - destruct acc; [congruence|discriminate].
  - destruct (is_space c).
    + destruct acc; [congruence|discriminate].
    + apply IH. destruct acc; discriminate.
Qed.

Lemma split_nil_blank (s : str) :
  split s = [] -> forallb is_space s = true.
Proof.
  unfold split. induction s as [|c s IH]; [reflexivity|].
  cbn [split_from forallb]. destruct (is_space c); [exact IH|].
  intros H. now apply split_from_word_nonempty in H.
Qed.

(** X20: when the words of idea start with ASCII characters, the ticker
    of a successful response is the empty string only for an idea that
    is all whitespace. *)
Theorem empty_ticker_iff_blank (R : Runtime) (up : Upstream)
        (req : outcome pyval) (resp : response) (tr : trace) :
  handle R up req = (Ret resp, tr) ->
  successful resp ->
  exists data s t,
    req = Ret data
    /\ dict_get data (lit "idea") PNone = Ret (PStr s)
    /\ field (lit "ticker") (body resp) = Some (PStr t)
    /\ (forallb is_ascii (initials s) = true ->
        (t = [] <-> forallb is_space s = true)).
Proof.
  intros Hrun Hs.
  destruct (generate_success R up req resp tr Hrun Hs)
    as (data & s & image_url & -> & Hidea & _ & ->).
  exists data, s, (upper (unicode R) (initials s)).
  split; [reflexivity|]. split; [exact Hidea|].
  split; [unfold initials; now rewrite <- spec_ticker_upper|].
  intros Hascii. rewrite (upper_ascii _ _ Hascii). split.
  - intros Ht. apply split_nil_blank.
    apply (f_equal (@List.length _)) in Ht.
    rewrite length_map, initials_length in Ht. cbn [List.length] in Ht.
    destruct (split s); [reflexivity|]. cbn in Ht. lia.
  - intros Hblank. unfold initials, split.
    now rewrite (split_from_blank s Hblank).
Qed.

Lemma empty_ticker_iff_blank_witness :
  exists resp tr,
    handle mock_runtime (mock_upstream 1)
           (Ret (PDict (mock_request (lit " - ") None))) = (Ret resp, tr)
    /\ field (lit "ticker") (body resp) = Some (PStr (lit "-"))
    /\ (lit "-" = [] <-> forallb is_space (lit " - ") = true).
Proof.
  eexists. eexists. split; [vm_compute; reflexivity|].
  destruct (empty_ticker_iff_blank
              mock_runtime (mock_upstream 1)
              (Ret (PDict (mock_request (lit " - ") None)))
              _ _ eq_refl eq_refl)
    as (data & s & t & Hreq & Hidea & Hticker & Hiff).
  injection Hreq as <-. injection Hidea as <-.
  vm_compute in Hticker. injection Hticker as <-.
  split; [reflexivity|]. exact (Hiff eq_refl).
Defined.
